(** * tbtools scripts: merge-logs.py, process-devices.py, process-trace.py, util.py

    A shallow embedding of the four Python scripts and the properties
    their specification states about them.

    Conventions of the embedding.
    - A Python [str] is a Rocq [string]; a character is its code point,
      below 256.  In that range the regular expression class [\d] is
      '0'..'9' and [\s] is the white space of [str.isspace].
    - A Python exception is a value of [exn]; code that may raise
      returns a [result].
    - A text file opened for reading is the list of the lines that
      [readline] still has to return. *)

From Stdlib Require Import ZArith Ascii Lia ZifyNat.
From Stdlib Require String.
From stdpp Require Import gmap strings list fin_maps pretty sorting.

Ltac Zify.zify_post_hook ::= Z.to_euclidean_division_equations.

(** ** Exceptions *)

Inductive exn : Type :=
  | IndexError
  | KeyError
  | ValueError
  | TypeError
  | AttributeError.

Inductive result (A : Type) : Type :=
  | Ok (a : A)
  | Raise (e : exn).

Arguments Ok {A} a.
Arguments Raise {A} e.

#[export] Instance result_ret : MRet result := fun A a => Ok a.

#[export] Instance result_bind : MBind result := fun A B k r =>
  match r with
  | Ok a => k a
  | Raise e => Raise e
  end.

(** ** Characters and text *)

Definition code (c : ascii) : N := N_of_ascii c.

(** [\d] *)
Definition is_digit (c : ascii) : bool :=
  ((48 <=? code c) && (code c <=? 57))%N.

(** [\s], [str.isspace] *)
Definition is_space (c : ascii) : bool :=
  (((9 <=? code c) && (code c <=? 13)) ||
   ((28 <=? code c) && (code c <=? 32)) ||
   (code c =? 133) || (code c =? 160))%N.

Definition nl : ascii := ascii_of_N 10.

Definition is_nl (c : ascii) : bool := (code c =? 10)%N.

(** The longest prefix of [s] whose characters satisfy [p], and the rest. *)
Fixpoint span (p : ascii -> bool) (s : string) : string * string :=
  match s with
  | EmptyString => (EmptyString, EmptyString)
  | String c r =>
      if p c then let '(a, b) := span p r in (String c a, b)
      else (EmptyString, s)
  end.

(** [line.rstrip('\n')] *)
Fixpoint rstrip_nl (s : string) : string :=
  match s with
  | EmptyString => EmptyString
  | String c r =>
      match rstrip_nl r with
      | EmptyString => if is_nl c then EmptyString else String c EmptyString
      | r' => String c r'
      end
  end.

(** The lines of a text, each with its line break, as [readline] returns
    them one after another: a last line without a line break is a line
    too, and no line is empty. *)
Fixpoint lines_from (cur : string) (s : string) : list string :=
  match s with
  | EmptyString =>
      match cur with
      | EmptyString => []
      | _ => [cur]
      end
  | String c r =>
      if is_nl c then (cur +:+ String c EmptyString) :: lines_from EmptyString r
      else lines_from (cur +:+ String c EmptyString) r
  end.

(** [open(file, 'r')] on a file that holds [text]: the decoded content,
    its line breaks read as line feeds, as the text mode gives it *)
Definition open_ (text : string) : list string := lines_from EmptyString text.

(** ** The boundary pattern of merge-logs.py

    [re.compile(r"^\[\s*(\d+\.\d+)\]").match(line)].  The classes that
    follow one another in the pattern are disjoint, so the greedy match
    is the only one.  The result is [group(1)]. *)
Definition pattern_match (line : string) : option string :=
  match line with
  | String "["%char r0 =>
      let '(_, r1) := span is_space r0 in
      let '(d1, r2) := span is_digit r1 in
      match d1, r2 with
      | String _ _, String "."%char r3 =>
          let '(d2, r4) := span is_digit r3 in
          match d2, r4 with
          | String _ _, String "]"%char _ => Some (d1 +:+ "." +:+ d2)
          | _, _ => None
          end
      | _, _ => None
      end
  | _ => None
  end.

(** ** [float] on the text the pattern captures

    [float(s)] is the IEEE 754 binary64 number nearest to the decimal
    [s], ties to even.  A number that is not negative is modelled by its
    64 bits read as an integer: on such numbers the order and the
    equality of the floats are the order and the equality of the bits. *)

Definition round_half_even (n d : Z) : Z :=
  let q := (n / d)%Z in
  let r := (n mod d)%Z in
  if (2 * r <? d)%Z then q
  else if (d <? 2 * r)%Z then (q + 1)%Z
  else if Z.even q then q else (q + 1)%Z.

Definition float_inf : Z := (2047 * 2 ^ 52)%Z.

(** the bits of the binary64 nearest to [n / d], for [0 <= n] and [0 < d] *)
Definition binary64_of_ratio (n d : Z) : Z :=
  if (n =? 0)%Z then 0%Z
  else
    let l := (Z.log2 n - Z.log2 d)%Z in
    let fl := if (0 <=? l)%Z
              then (if (d * 2 ^ l <=? n)%Z then l else l - 1)%Z
              else (if (d <=? n * 2 ^ (- l))%Z then l else l - 1)%Z in
    let e := Z.max (fl - 52) (-1074) in
    let m := if (0 <=? e)%Z then round_half_even n (d * 2 ^ e)
             else round_half_even (n * 2 ^ (- e)) d in
    let bits := ((e + 1074) * 2 ^ 52 + m)%Z in
    if (float_inf <=? bits)%Z then float_inf else bits.

Definition digit_value (c : ascii) : Z := (Z.of_N (code c) - 48)%Z.

(** the number the digits of [s] spell, behind the digits of [acc] *)
Fixpoint digits_value (acc : Z) (s : string) : Z :=
  match s with
  | EmptyString => acc
  | String c r => digits_value (10 * acc + digit_value c) r
  end.

(** [float(s)] for [s] of the form digits, a point, digits *)
Definition float_of_decimal (s : string) : Z :=
  let '(d1, r) := span is_digit s in
  let d2 := match r with String _ r' => fst (span is_digit r') | EmptyString => EmptyString end in
  binary64_of_ratio (digits_value (digits_value 0 d1) d2)
                    (10 ^ Z.of_nat (String.length d2)).

(** ** Python lists *)

(** [l[i]] *)
Definition getitem {A : Type} (l : list A) (i : nat) : result A :=
  match l !! i with
  | Some x => Ok x
  | None => Raise IndexError
  end.

(** [l[i] = x] *)
Definition setitem {A : Type} (l : list A) (i : nat) (x : A) : result (list A) :=
  if decide (i < length l) then Ok (<[i:=x]> l) else Raise IndexError.

(** ** The heap queue of the Python library, after Lib/heapq.py

    A heap is a list [heap] with [heap[(k-1)//2] <= heap[k]] for every
    [0 < k].  The loops go down on a counter that is large enough at
    every call below: where it reaches 0 the loop's own test fails. *)

Module heapq.
Section heapq.
Context {A : Type} (lt : A -> A -> bool).

(** the loop of [_siftdown]: [while pos > startpos] *)
Fixpoint siftdown_loop (fuel : nat) (heap : list A) (newitem : A)
    (startpos pos : nat) : result (list A) :=
  match fuel with
  | 0 => setitem heap pos newitem
  | S fuel' =>
      if decide (startpos < pos) then
        let parentpos := (pos - 1) / 2 in
        parent ← getitem heap parentpos;
        if lt newitem parent then
          heap ← setitem heap pos parent;
          siftdown_loop fuel' heap newitem startpos parentpos
        else setitem heap pos newitem
      else setitem heap pos newitem
  end.

(** [_siftdown(heap, startpos, pos)] *)
Definition siftdown (heap : list A) (startpos pos : nat) : result (list A) :=
  newitem ← getitem heap pos;
  siftdown_loop pos heap newitem startpos pos.

(** the loop of [_siftup]: [while childpos < endpos]; it returns the
    heap and the leaf position reached *)
Fixpoint siftup_loop (fuel : nat) (heap : list A) (endpos pos childpos : nat)
    : result (list A * nat) :=
  match fuel with
  | 0 => Ok (heap, pos)
  | S fuel' =>
      if decide (childpos < endpos) then
        let rightpos := childpos + 1 in
        childpos ←
          (if decide (rightpos < endpos) then
             l ← getitem heap childpos;
             r ← getitem heap rightpos;
             Ok (if lt l r then childpos else rightpos)
           else Ok childpos);
        child ← getitem heap childpos;
        heap ← setitem heap pos child;
        siftup_loop fuel' heap endpos childpos (2 * childpos + 1)
      else Ok (heap, pos)
  end.

(** [_siftup(heap, pos)] *)
Definition siftup (heap : list A) (pos : nat) : result (list A) :=
  let endpos := length heap in
  let startpos := pos in
  newitem ← getitem heap pos;
  '(heap, pos) ← siftup_loop endpos heap endpos pos (2 * pos + 1);
  heap ← setitem heap pos newitem;
  siftdown heap startpos pos.

(** [heappush(heap, item)] *)
Definition heappush (heap : list A) (item : A) : result (list A) :=
  let heap := heap ++ [item] in
  siftdown heap 0 (length heap - 1).

(** [heappop(heap)]: the item popped and the heap left *)
Definition heappop (heap : list A) : result (A * list A) :=
  match last heap with
  | None => Raise IndexError
  | Some lastelt =>
      let heap := take (length heap - 1) heap in
      match heap with
      | [] => Ok (lastelt, heap)
      | returnitem :: _ =>
          heap ← setitem heap 0 lastelt;
          heap ← siftup heap 0;
          Ok (returnitem, heap)
      end
  end.
End heapq.
End heapq.

(** ** merge-logs.py *)

(** The tuple [(float, count, text)] that stands for a record. *)
Definition log_entry : Type := Z * nat * string.

Definition timestamp (e : log_entry) : Z := e.1.1.
Definition sequence (e : log_entry) : nat := e.1.2.
Definition text (e : log_entry) : string := e.2.

(** [a < b] on two such tuples: the first components that differ decide. *)
Definition entry_lt (a b : log_entry) : bool :=
  if negb (timestamp a =? timestamp b)%Z then (timestamp a <? timestamp b)%Z
  else if negb (sequence a =? sequence b)%nat then (sequence a <? sequence b)%nat
  else String.ltb (text a) (text b).

(** [if entry: heapq.heappush(heap, entry)]; the empty tuple is [None] *)
Definition push_pending (entry : option log_entry) (heap : list log_entry)
    : result (list log_entry) :=
  match entry with
  | Some e => heapq.heappush entry_lt heap e
  | None => Ok heap
  end.

(** The [while True] loop over one file, lines 17 to 36.  The match on
    [file] is [line = file.readline()]: the next line of the file, or
    the empty string at its end. *)
Fixpoint read_file (file : list string) (entry : option log_entry)
    (heap : list log_entry) (count : nat) : result (list log_entry * nat) :=
  match file with
  | [] =>
      (* readline returns the empty string *)
      heap ← push_pending entry heap;
      Ok (heap, count)
  | line :: file =>
      if decide (line = EmptyString) then
        heap ← push_pending entry heap;
        Ok (heap, count)
      else
        let line := rstrip_nl line in
        match pattern_match line with
        | Some group1 =>
            heap ← push_pending entry heap;
            let entry := Some (float_of_decimal group1, count, line) in
            read_file file entry heap (count + 1)
        | None =>
            match entry with
            | None => Raise IndexError
            | Some e =>
                let entry :=
                  Some (timestamp e, sequence e,
                        text e +:+ String nl EmptyString +:+ line) in
                read_file file entry heap count
            end
        end
  end.

(** [for file in files:], lines 15 to 36 *)
Fixpoint read_files (files : list (list string)) (heap : list log_entry)
    (count : nat) : result (list log_entry * nat) :=
  match files with
  | [] => Ok (heap, count)
  | file :: files =>
      '(heap, count) ← read_file file None heap count;
      read_files files heap count
  end.

(** [while heap: print(heapq.heappop(heap)[2])]; the result is what was
    printed, one text per [print] *)
Fixpoint drain (fuel : nat) (heap : list log_entry) : result (list string) :=
  match fuel, heap with
  | S fuel', _ :: _ =>
      '(e, heap) ← heapq.heappop entry_lt heap;
      out ← drain fuel' heap;
      Ok (text e :: out)
  | _, _ => Ok []
  end.

(** [merge_logs], called with the logs, each given by the text of its file *)
Definition merge_logs (logs : list string) : result (list string) :=
  let files := map open_ logs in
  '(heap, count) ← read_files files [] 0;
  drain (length heap) heap.

(** ** Values, rows and the csv module

    The values that occur in a row: a cell of the input is a [str];
    [csv.DictReader] gives [None] to a column the row is too short for,
    and the list of the cells beyond the header to the key [None];
    [convert_int] stores an [int].  A key of a row is [Some name] for
    the [str] [name], [None] for Python's [None]. *)

Inductive value : Type :=
  | VNone
  | VStr (s : string)
  | VInt (n : Z)
  | VList (l : list string).

#[export] Instance value_eq_dec : EqDecision value.
Proof. solve_decision. Defined.

Abbreviation key := (option string) (only parsing).
Abbreviation dict := (gmap (option string) value) (only parsing).

(** the truth value of [tmp] in [if tmp:] *)
Definition truthy (v : value) : bool :=
  match v with
  | VNone => false
  | VStr s => negb (String.eqb s "")
  | VInt n => negb (n =? 0)%Z
  | VList l => match l with [] => false | _ => true end
  end.

(** [fields[name]] *)
Definition dict_get (fields : dict) (name : key) : result value :=
  match fields !! name with
  | Some v => Ok v
  | None => Raise KeyError
  end.

(** [{key: row[key] for key in names if key in row}] *)
Definition project (names : list string) (row : dict) : dict :=
  foldl (fun d name =>
           match row !! Some name with
           | Some v => <[Some name := v]> d
           | None => d
           end) ∅ names.

(** [csv.DictReader.__next__] on a row that is not empty:
    [d = dict(zip(fieldnames, row))], then the key [None] for the cells
    beyond the header, or [None] for the columns beyond the row. *)
Definition dict_of_row (fieldnames row : list string) : dict :=
  let d : dict :=
    foldl (fun d kv => <[Some kv.1 := VStr kv.2]> d) ∅ (zip fieldnames row) in
  let lf := length fieldnames in
  let lr := length row in
  if decide (lf < lr) then <[None := VList (drop lf row)]> d
  else foldl (fun d name => <[Some name := VNone]> d) d (drop lr fieldnames).

(** The rows [csv.DictReader] yields for the records of [csv.reader]:
    the first record is the header, empty records are skipped. *)
Definition DictReader (records : list (list string)) : list dict :=
  match records with
  | [] => []
  | fieldnames :: rows =>
      map (dict_of_row fieldnames)
          (filter (fun row => row ≠ []) rows)
  end.

(** [csv.DictWriter(f, fieldnames).writerow(rowdict)], with the default
    [extrasaction='raise'] and [restval='']: the cells handed to the
    writer of the file. *)
Definition writerow (fieldnames : list string) (rowdict : dict)
    : result (list value) :=
  if decide (dom rowdict ⊆ list_to_set (Some <$> fieldnames))
  then Ok ((fun name => default (VStr "") (rowdict !! Some name)) <$> fieldnames)
  else Raise ValueError.

(** [writeheader()] writes the names themselves *)
Definition header_cells (fieldnames : list string) : list value :=
  VStr <$> fieldnames.

(** a cell that the writer renders as the empty text *)
Definition empty_cell (v : value) : Prop := v = VNone ∨ v = VStr "".

(** ** [int(text, 16)], after [PyLong_FromString] *)

Definition hex_digit (c : ascii) : option Z :=
  let n := Z.of_N (code c) in
  if ((48 <=? n) && (n <=? 57))%Z then Some (n - 48)%Z
  else if ((97 <=? n) && (n <=? 102))%Z then Some (n - 87)%Z
  else if ((65 <=? n) && (n <=? 70))%Z then Some (n - 55)%Z
  else None.

(** the white space [int] strips *)
Definition is_int_space (c : ascii) : bool :=
  (((9 <=? code c) && (code c <=? 13)) || (code c =? 32) ||
   (code c =? 133) || (code c =? 160))%N.

Definition is_underscore (c : ascii) : bool := (code c =? 95)%N.

(** The digits, single underscores allowed between them; [prev] tells
    that the character before was an underscore, [seen] that a character
    was taken.  The result is the number and the text left. *)
Fixpoint scan_hex (s : string) (prev seen : bool) (acc : Z)
    : option (Z * string) :=
  let finish := if prev || negb seen then None else Some (acc, s) in
  match s with
  | EmptyString => finish
  | String c r =>
      if is_underscore c then
        if prev then None else scan_hex r true true acc
      else
        match hex_digit c with
        | Some d => scan_hex r false true (16 * acc + d)%Z
        | None => finish
        end
  end.

Definition strip_sign (s : string) : bool * string :=
  match s with
  | String "+"%char r => (false, r)
  | String "-"%char r => (true, r)
  | _ => (false, s)
  end.

Definition strip_0x (s : string) : string :=
  match s with
  | String "0"%char (String x r) =>
      if (code x =? 120)%N || (code x =? 88)%N then
        match r with
        | String "_"%char r' => r'
        | _ => r
        end
      else s
  | _ => s
  end.

Definition int16_text (s : string) : option Z :=
  let s := (span is_int_space s).2 in
  let '(neg, s) := strip_sign s in
  let s := strip_0x s in
  match s with
  | String "_"%char _ => None
  | _ =>
      match scan_hex s false false 0 with
      | Some (n, rest) =>
          match (span is_int_space rest).2 with
          | EmptyString => Some (if neg then (- n)%Z else n)
          | _ => None
          end
      | None => None
      end
  end.

(** [int(tmp, 16)] *)
Definition int16 (tmp : value) : result Z :=
  match tmp with
  | VStr s =>
      match int16_text s with
      | Some n => Ok n
      | None => Raise ValueError
      end
  | _ => Raise TypeError
  end.

(** ** util.py *)

(** [convert_int(fields, name)]; the result is [fields] after the call *)
Definition convert_int (fields : dict) (name : string) : result dict :=
  tmp ← dict_get fields (Some name);
  if truthy tmp then
    n ← int16 tmp;
    Ok (<[Some name := VInt n]> fields)
  else Ok fields.

Section with_datetime.
(** [datetime.datetime.fromtimestamp(float(tmp)).strftime("%Y-%m-%dT%H:%M:%S")]:
    the rendering depends on the time zone of the host. *)
Variable local_iso : value -> result string.

(** [convert_timestamp(fields, name)] *)
Definition convert_timestamp (fields : dict) (name : string) : result dict :=
  tmp ← dict_get fields (Some name);
  if truthy tmp then
    text ← local_iso tmp;
    Ok (<[Some name := VStr text]> fields)
  else Ok fields.
End with_datetime.

(** ** process-devices.py *)

Definition device_names : list string :=
  ["domain"; "route"; "adapter"; "index"; "vendor"; "device";
   "vendor_name"; "device_name"; "type"].

(** the body of [for row in reader:], lines 29 to 32: the cells written *)
Definition device_row (row : dict) : result (list value) :=
  row ← convert_int row "route";
  row ← convert_int row "vendor";
  row ← convert_int row "device";
  writerow device_names row.

(** [for row in reader:] with the records written so far; the result is
    the records of the output file and how the loop ended *)
Fixpoint devices_loop (reader : list dict) (out : list (list value))
    : list (list value) * result () :=
  match reader with
  | [] => (out, Ok ())
  | row :: reader =>
      match device_row row with
      | Ok cells => devices_loop reader (out ++ [cells])
      | Raise e => (out, Raise e)
      end
  end.

(** [process_devices(args)] on the records [csv.reader] finds in
    [args.devices] *)
Definition process_devices (records : list (list string))
    : list (list value) * result () :=
  let reader := DictReader records in
  devices_loop reader [header_cells device_names].

(** ** process-trace.py *)

Definition entry_names : list string :=
  ["entry"; "timestamp"; "datetime"; "function"; "dropped"; "pdf"; "cs";
   "domain"; "route"; "adapter"; "adapter_type"].

Definition field_names : list string :=
  ["entry"; "offset"; "data_offset"; "value"; "name"].

(** What the variable [fields] of [process_trace] holds: the name of the
    fields file at first, the list of the buffered rows later. *)
Inductive fields_var : Type :=
  | FName (s : string)
  | FRows (rows : list dict).

(** What iterating over [fields] yields: a character of a [str], or a row. *)
Inductive item : Type :=
  | IChar (c : ascii)
  | IRow (row : dict).

Definition iterate (fields : fields_var) : list item :=
  match fields with
  | FName s => IChar <$> String.list_ascii_of_string s
  | FRows rows => IRow <$> rows
  end.

(** [key in field] *)
Definition contains (field : item) (name : string) : bool :=
  match field with
  | IChar c => bool_decide (is_Some (String.index 0 name (String c EmptyString)))
  | IRow row => bool_decide (is_Some (row !! Some name))
  end.

(** [{key: field[key] for key in field_names if key in field}]; a [str]
    cannot be indexed by a [str] *)
Fixpoint comprehension (names : list string) (field : item) (f : dict)
    : result dict :=
  match names with
  | [] => Ok f
  | name :: names =>
      if contains field name then
        match field with
        | IChar _ => Raise TypeError
        | IRow row =>
            v ← dict_get row (Some name);
            comprehension names field (<[Some name := v]> f)
        end
      else comprehension names field f
  end.

(** the body of the loop of [write_row], lines 11 to 17 *)
Definition write_field (field : item) (names : list string)
    : result (list value) :=
  f ← comprehension names field ∅;
  f ← convert_int f "offset";
  f ← convert_int f "data_offset";
  f ← convert_int f "value";
  writerow names f.

(** [write_row(fields, writer, field_names)] on the records written so far *)
Fixpoint write_items (fields : list item) (names : list string)
    (out : list (list value)) : list (list value) * result () :=
  match fields with
  | [] => (out, Ok ())
  | field :: fields =>
      match write_field field names with
      | Ok cells => write_items fields names (out ++ [cells])
      | Raise e => (out, Raise e)
      end
  end.

Definition write_row (fields : fields_var) (names : list string)
    (out : list (list value)) : list (list value) * result () :=
  write_items (iterate fields) names out.

(** The variables of [process_trace] and the two output files. *)
Record trace_state : Type := {
  line : value;
  fields : fields_var;
  entries_file : list (list value);
  fields_file : list (list value);
}.

(** [fields.append(row)] *)
Definition append (fields : fields_var) (row : dict) : result fields_var :=
  match fields with
  | FName _ => Raise AttributeError
  | FRows rows => Ok (FRows (rows ++ [row]))
  end.

Section process_trace.
Variable local_iso : value -> result string.

(** lines 62 to 65: the cells of the entry record *)
Definition entry_record (row : dict) : result (list value) :=
  let e := project entry_names row in
  e ← convert_timestamp local_iso e "datetime";
  e ← convert_int e "route";
  writerow entry_names e.

(** the body of [for row in reader:], lines 55 to 71 *)
Definition trace_step (st : trace_state) (row : dict)
    : trace_state * result () :=
  if negb (truthy (line st)) then
    match dict_get row (Some "entry") with
    | Ok v =>
        ({| line := v; fields := FRows [row];
            entries_file := entries_file st;
            fields_file := fields_file st |}, Ok ())
    | Raise e => (st, Raise e)
    end
  else
    match dict_get row (Some "entry") with
    | Raise e => (st, Raise e)
    | Ok v =>
        if decide (line st ≠ v) then
          match entry_record row with
          | Raise e => (st, Raise e)
          | Ok cells =>
              let entries_out := entries_file st ++ [cells] in
              let '(fields_out, r) :=
                write_row (fields st) field_names (fields_file st) in
              match r with
              | Raise e =>
                  ({| line := line st; fields := fields st;
                      entries_file := entries_out;
                      fields_file := fields_out |}, Raise e)
              | Ok _ =>
                  ({| line := v; fields := FRows [row];
                      entries_file := entries_out;
                      fields_file := fields_out |}, Ok ())
              end
          end
        else
          match append (fields st) row with
          | Raise e => (st, Raise e)
          | Ok fs =>
              ({| line := line st; fields := fs;
                  entries_file := entries_file st;
                  fields_file := fields_file st |}, Ok ())
          end
    end.

(** [for row in reader:] *)
Fixpoint trace_loop (reader : list dict) (st : trace_state)
    : trace_state * result () :=
  match reader with
  | [] => (st, Ok ())
  | row :: reader =>
      match trace_step st row with
      | (st, Ok _) => trace_loop reader st
      | (st, Raise e) => (st, Raise e)
      end
  end.

(** [process_trace(args)], for the base name [base] that lines 20 and
    21 find and the records [csv.reader] finds in [args.trace]: the
    records of the entries file, those of the fields file, and how the
    call ended *)
Definition process_trace (base : string) (records : list (list string))
    : list (list value) * list (list value) * result () :=
  let fields_name := base +:+ ".processed.fields.csv" in
  let reader := DictReader records in
  let st := {| line := VNone; fields := FName fields_name;
               entries_file := [header_cells entry_names];
               fields_file := [header_cells field_names] |} in
  match trace_loop reader st with
  | (st, Raise e) => (entries_file st, fields_file st, Raise e)
  | (st, Ok _) =>
      let '(fields_out, r) :=
        write_row (fields st) field_names (fields_file st) in
      (entries_file st, fields_out, r)
  end.
End process_trace.

(** * Definitions for the statements *)

(** ** The order of a heap

    The comparison [lt] is the parameter; the invariants are stated for
    [le a b], which is not [lt b a]. *)

Section heap_order.
Context {A : Type} (lt : A -> A -> bool).

(** [a <= b]: not [b < a] *)
Definition le (a b : A) : Prop := lt b a = false.

(** the edge from the parent of position [i] to [i] is in order *)
Definition edge_ok (h : list A) (i : nat) : Prop :=
  forall x p, h !! i = Some x -> h !! ((i - 1) / 2) = Some p -> le p x.

(** the heap invariant *)
Definition heap_ok (h : list A) : Prop :=
  forall i, 0 < i -> edge_ok h i.

(** The state of the loop of [_siftdown] with [startpos = 0]: [h] with
    [newitem] put at [pos] is a heap but for the edge into [pos], and
    the items under [pos] are not below the item above it. *)
Definition down_inv (h : list A) (newitem : A) (pos : nat) : Prop :=
  (forall i, 0 < i -> i ≠ pos -> edge_ok (<[pos:=newitem]> h) i) /\
  (forall c x p, 0 < pos -> 0 < c -> (c - 1) / 2 = pos ->
     h !! c = Some x -> h !! ((pos - 1) / 2) = Some p -> le p x).

(** The state of the first loop of [_siftup]: the edges that do not
    touch [pos] are in order, and the items under [pos] are not below
    the item above it. *)
Definition up_inv (h : list A) (pos : nat) : Prop :=
  (forall i, 0 < i -> i ≠ pos -> (i - 1) / 2 ≠ pos -> edge_ok h i) /\
  (forall c x p, 0 < pos -> 0 < c -> (c - 1) / 2 = pos ->
     h !! c = Some x -> h !! ((pos - 1) / 2) = Some p -> le p x).

End heap_order.

(** ** merge-logs.py: the records of the sources *)

(** a boundary line: the pattern matches it *)
Definition boundary (line : string) : bool :=
  match pattern_match line with
  | Some _ => true
  | None => false
  end.

(** the continuation lines at the head of [lines], each behind a line break *)
Fixpoint continuation (lines : list string) : string :=
  match lines with
  | [] => ""
  | l :: rest =>
      if boundary l then ""
      else String nl EmptyString +:+ l +:+ continuation rest
  end.

(** The records of a source given by its lines: a boundary line opens a
    record, which holds that line and the continuation lines behind it;
    a record is the pair of its timestamp and its text. *)
Fixpoint records (lines : list string) : list (Z * string) :=
  match lines with
  | [] => []
  | l :: rest =>
      match pattern_match l with
      | Some group1 =>
          (float_of_decimal group1, l +:+ continuation rest) :: records rest
      | None => records rest
      end
  end.

(** the lines of a source without their line breaks *)
Definition source_lines (text : string) : list string :=
  rstrip_nl <$> open_ text.

(** the tuples of the records [recs], counted from [count] *)
Definition numbered (count : nat) (recs : list (Z * string)) : list log_entry :=
  imap (fun i r => (r.1, count + i, r.2)) recs.

(** The tuples in the order in which [merge_logs] finalizes them: source
    after source, and from top to bottom within a source. *)
Definition finalized (logs : list string) : list log_entry :=
  numbered 0 (concat ((fun text => records (source_lines text)) <$> logs)).

(** a source is empty or starts with a boundary line *)
Definition starts_ok (lines : list string) : bool :=
  match lines with
  | [] => true
  | l :: _ => boundary l
  end.

(** what was printed when the run ended *)
Definition printed (r : result (list string)) : list string :=
  match r with
  | Ok out => out
  | Raise _ => []
  end.

(** [heapq.heappush] of the tuples [es], one after another *)
Fixpoint push_all (heap : list log_entry) (es : list log_entry)
    : result (list log_entry) :=
  match es with
  | [] => Ok heap
  | e :: es => heap ← heapq.heappush entry_lt heap e; push_all heap es
  end.

(** the tuple that the variable [entry] of the loop becomes when the
    continuation lines at the head of [lines] have been appended to it *)
Definition pending (entry : option log_entry) (lines : list string)
    : list log_entry :=
  match entry with
  | Some e => [(timestamp e, sequence e, text e +:+ continuation lines)]
  | None => []
  end.

(** every source is empty or starts with a boundary line *)
Definition well_formed (logs : list string) : Prop :=
  Forall (fun text => starts_ok (source_lines text) = true) logs.

(** the number of boundary lines in all the sources *)
Definition boundary_lines (logs : list string) : nat :=
  sum_list ((fun text => length (filter (fun l => boundary l = true) (source_lines text)))
            <$> logs).

(** the two files of the example of the specification *)
Definition example_A : string :=
  "[1.0] hello" +:+ String nl "cont" +:+ String nl "[3.0] world".

Definition example_B : string := "[2.0] foo".

(** two files with three records of one and the same timestamp *)
Definition example_ties : list string :=
  ["[2.0] a" +:+ String nl "[1.0] b"; "[1.00] c" +:+ String nl "[ 1.0] d"].

#[local] Instance well_formed_dec logs : Decision (well_formed logs).
Proof. unfold well_formed. apply _. Defined.

(** ** util.py and the csv tools *)

(** the number a text of hexadecimal digits spells, behind [acc] *)
Fixpoint hex_value (acc : Z) (s : string) : option Z :=
  match s with
  | EmptyString => Some acc
  | String c r =>
      match hex_digit c with
      | Some d => hex_value (16 * acc + d) r
      | None => None
      end
  end.

(** the row of the example, in the columns of the schema *)
Definition example_device_row (domain adapter index vendor_name device_name type : string)
    : list string :=
  [domain; "1a"; adapter; index; "8086"; "10d3"; vendor_name; device_name; type].

(** [convert_int] keeps the keys of the row, and the values that are
    missing or [None] *)
Definition keeps_blank (fields fields' : gmap (option string) value) : Prop :=
  dom fields' = dom fields /\
  forall k, (fields !! k = None -> fields' !! k = None) /\
            (fields !! k = Some VNone -> fields' !! k = Some VNone).

(** What holds of a row that was written under the names [names]: it
    has no key beside them, and a name it lacks, or holds [None] for,
    has an empty cell. *)
Definition written (names : list string) (row : gmap (option string) value)
    (cells : list value) : Prop :=
  dom row ⊆ list_to_set (Some <$> names) /\
  length cells = length names /\
  forall i name, names !! i = Some name ->
    row !! Some name = None \/ row !! Some name = Some VNone ->
    exists v, cells !! i = Some v /\ empty_cell v.

(** ** An instance of the rendering of timestamps

    [process_trace] is stated for any rendering [local_iso].  The
    examples use the one of a host whose time zone is UTC, on a text of
    decimal digits that counts whole seconds since 1970, up to the year
    9999; it is exact on such texts and not meant for others. *)

(** the year, month and day of a count of days since 1970-01-01, by the
    usual algorithm on eras of 400 years *)
Definition civil_from_days (days : Z) : Z * Z * Z :=
  let z := (days + 719468)%Z in
  let era := (z / 146097)%Z in
  let doe := (z - era * 146097)%Z in
  let yoe := ((doe - doe / 1460 + doe / 36524 - doe / 146096) / 365)%Z in
  let doy := (doe - (365 * yoe + yoe / 4 - yoe / 100))%Z in
  let mp := ((5 * doy + 2) / 153)%Z in
  let d := (doy - (153 * mp + 2) / 5 + 1)%Z in
  let m := (if mp <? 10 then mp + 3 else mp - 9)%Z in
  let y := (yoe + era * 400 + (if m <=? 2 then 1 else 0))%Z in
  (y, m, d).

(** [n] in two digits, and in four *)
Definition digits2 (n : Z) : string :=
  (if (n <? 10)%Z then "0" else "") +:+ pretty n.

Definition digits4 (n : Z) : string :=
  (if (n <? 10)%Z then "000" else if (n <? 100)%Z then "00"
   else if (n <? 1000)%Z then "0" else "") +:+ pretty n.

(** [s] is not empty and holds decimal digits only *)
Definition all_digits (s : string) : bool :=
  match span is_digit s with
  | (String _ _, EmptyString) => true
  | _ => false
  end.

(** [datetime.datetime.fromtimestamp(float(tmp)).strftime("%Y-%m-%dT%H:%M:%S")]
    under [TZ=UTC] *)
Definition utc_iso (tmp : value) : result string :=
  match tmp with
  | VStr s =>
      if all_digits s then
        let t := digits_value 0 s in
        let '(y, m, d) := civil_from_days (t / 86400) in
        let secs := (t mod 86400)%Z in
        if (y <=? 9999)%Z then
          Ok (digits4 y +:+ "-" +:+ digits2 m +:+ "-" +:+ digits2 d +:+ "T" +:+
              digits2 (secs / 3600) +:+ ":" +:+ digits2 (secs mod 3600 / 60) +:+
              ":" +:+ digits2 (secs mod 60))
        else Raise ValueError
      else Raise ValueError
  | _ => Raise TypeError
  end.

(** ** Inputs of process-trace.py for the examples *)

(** the columns of a trace: those of an entry, then those of a field *)
Definition trace_header : list string :=
  ["entry"; "timestamp"; "datetime"; "function"; "dropped"; "pdf"; "cs";
   "domain"; "route"; "adapter"; "adapter_type";
   "offset"; "data_offset"; "value"; "name"].

(** an entry with two fields, then an entry with one field *)
Definition example_trace : list (list string) :=
  [trace_header;
   ["1"; "10"; "1000000000"; "tx"; "0"; "5"; "1"; "0"; "1a"; "1"; "port";
    "0"; "0"; "a1"; "first"];
   ["1"; "10"; "1000000000"; "tx"; "0"; "5"; "1"; "0"; "1a"; "1"; "port";
    "1"; "4"; "b2"; "second"];
   ["2"; "70"; "1000000060"; "rx"; "0"; "5"; "1"; "0"; "1b"; "3"; "port";
    "0"; "0"; "c3"; "third"]].

(** the entry ids of the rows, in their order *)
Definition entry_values (reader : list (gmap (option string) value)) : list value :=
  (fun row => default VNone (row !! Some "entry")) <$> reader.

(** the number of places in [vs] where the value differs from the one
    before it, [prev] being before the first *)
Fixpoint changes (prev : value) (vs : list value) : nat :=
  match vs with
  | [] => 0
  | v :: vs => (if decide (prev ≠ v) then 1 else 0) + changes v vs
  end.

(** the number of contiguous runs of equal values in [vs] *)
Definition runs (vs : list value) : nat :=
  match vs with
  | [] => 0
  | v :: vs => S (changes v vs)
  end.

(** the value written under [datetime] in an entry record projected
    from a row whose [datetime] is [d] *)
Definition datetime_rendered (local_iso : value -> result string)
    (d : value) (cell : value) : Prop :=
  if truthy d then exists text, local_iso d = Ok text /\ cell = VStr text
  else cell = d.

(** two entries; the second has the timestamp 86400 and the datetime 0 *)
Definition example_datetime : list (list string) :=
  [["entry"; "timestamp"; "datetime"; "route"; "offset"; "data_offset"; "value"; "name"];
   ["1"; "0"; "0"; "0"; "0"; "0"; "a1"; "first"];
   ["2"; "86400"; "0"; "0"; "0"; "0"; "b2"; "second"]].

(** * Definitions for the further properties *)

(** ** merge-logs.py *)

(** the records of all the sources, in the order of their finalization *)
Definition source_records (logs : list string) : list (Z * string) :=
  concat ((fun text => records (source_lines text)) <$> logs).

(** the timestamp and the text of a tuple *)
Definition record_of (e : log_entry) : Z * string := (timestamp e, text e).

(** [text.split('\n')]: the pieces of [s] between its line breaks *)
Fixpoint split_nl (s : string) : list string :=
  match s with
  | EmptyString => [EmptyString]
  | String c r =>
      if is_nl c then EmptyString :: split_nl r
      else match split_nl r with
           | h :: t => String c h :: t
           | [] => [String c EmptyString]
           end
  end.

(** [s] holds no line break *)
Fixpoint no_nl (s : string) : bool :=
  match s with
  | EmptyString => true
  | String c r => negb (is_nl c) && no_nl r
  end.

(** what the calls of [print] write for the texts [out], one after
    another: each text and a line break *)
Fixpoint stdout (out : list string) : string :=
  match out with
  | [] => EmptyString
  | t :: out => t +:+ String nl EmptyString +:+ stdout out
  end.

(** the continuation lines at the head of [lines], and the lines from
    the first boundary line on *)
Fixpoint continuation_lines (lines : list string) : list string :=
  match lines with
  | [] => []
  | l :: rest => if boundary l then [] else l :: continuation_lines rest
  end.

Fixpoint after_continuation (lines : list string) : list string :=
  match lines with
  | [] => []
  | l :: rest => if boundary l then lines else after_continuation rest
  end.

(** ** The names of the output files

    The first lines of [process_devices] and of [process_trace] find
    the names of the files they write from the path of the input, with
    [os.path.basename] and [os.path.splitext] of posixpath. *)

(** [s.rfind(c)] for a character [c]: the last place of [c] in [s], or -1 *)
Fixpoint rfind (c : ascii) (s : string) : Z :=
  match s with
  | EmptyString => (-1)%Z
  | String x r =>
      let i := rfind c r in
      if (0 <=? i)%Z then (i + 1)%Z
      else if Ascii.eqb x c then 0%Z else (-1)%Z
  end.

(** [s[:n]] and [s[n:]] *)
Fixpoint take_chars (n : nat) (s : string) : string :=
  match n, s with
  | S n, String c r => String c (take_chars n r)
  | _, _ => EmptyString
  end.

Fixpoint drop_chars (n : nat) (s : string) : string :=
  match n, s with
  | S n, String c r => drop_chars n r
  | _, _ => s
  end.

(** [os.path.basename(p)] *)
Definition basename (p : string) : string :=
  let i := (rfind "/" p + 1)%Z in
  drop_chars (Z.to_nat i) p.

(** the loop of [genericpath._splitext], which skips the leading dots of
    the file name: [while filenameIndex < dotIndex] *)
Fixpoint splitext_loop (fuel : nat) (p : string) (filenameIndex dotIndex : nat)
    : option (string * string) :=
  match fuel with
  | 0 => None
  | S fuel' =>
      if decide (filenameIndex < dotIndex) then
        if decide (String.get filenameIndex p ≠ Some "."%char)
        then Some (take_chars dotIndex p, drop_chars dotIndex p)
        else splitext_loop fuel' p (filenameIndex + 1) dotIndex
      else None
  end.

(** [os.path.splitext(p)] *)
Definition splitext (p : string) : string * string :=
  let sepIndex := rfind "/" p in
  let dotIndex := rfind "." p in
  let found :=
    if (sepIndex <? dotIndex)%Z then
      let filenameIndex := (sepIndex + 1)%Z in
      splitext_loop (Z.to_nat dotIndex) p (Z.to_nat filenameIndex) (Z.to_nat dotIndex)
    else None in
  match found with
  | Some r => r
  | None => (p, EmptyString)
  end.

(** lines 9 and 10 of process-devices.py, 20 and 21 of process-trace.py *)
Definition base_of (path : string) : string :=
  let base := basename path in
  (splitext base).1.

(** line 11 of process-devices.py *)
Definition devices_name (path : string) : string :=
  base_of path +:+ ".processed.csv".

(** lines 22 and 23 of process-trace.py *)
Definition entries_name (path : string) : string :=
  base_of path +:+ ".processed.entries.csv".

Definition fields_name (path : string) : string :=
  base_of path +:+ ".processed.fields.csv".

(** ** process-devices.py and process-trace.py: the cells written *)

(** [cell] is what [convert_int] leaves in the place of the value [v]:
    the number [int(v, 16)] when [v] is not empty, [v] itself when it is *)
Definition converted (v cell : value) : Prop :=
  if truthy v then exists n, int16 v = Ok n /\ cell = VInt n else cell = v.



(** the values of [vs] that differ from the one before them, [prev]
    being before the first: the values that start a new run *)
Fixpoint run_changes (prev : value) (vs : list value) : list value :=
  match vs with
  | [] => []
  | v :: vs => (if decide (prev ≠ v) then [v] else []) ++ run_changes v vs
  end.

(** the cells of the field record of [row] *)
Definition field_record (row : gmap (option string) value) (cells : list value) : Prop :=
  write_field (IRow row) field_names = Ok cells.

(** the row has an entry id, and it is not empty *)
Definition has_entry (row : gmap (option string) value) : Prop :=
  exists v, row !! Some "entry" = Some v /\ truthy v = true.

(** the row has the column [entry], with an empty value *)
Definition has_empty_entry (row : gmap (option string) value) : Prop :=
  exists v, row !! Some "entry" = Some v /\ truthy v = false.

(** ** merge-logs.py: the pattern *)

(** [s] holds white space only; it may be empty *)
Definition all_spaces (s : string) : bool :=
  match span is_space s with
  | (_, EmptyString) => true
  | _ => false
  end.

(** * Properties *)

Example float_1_0 : float_of_decimal "1.0" = (1023 * 2 ^ 52)%Z.
Proof. reflexivity. Qed.

Example float_0_1 : float_of_decimal "0.1" = 4591870180066957722%Z.
Proof. vm_compute. reflexivity. Qed.

Example float_eq_trailing : float_of_decimal "12.50" = float_of_decimal "12.5".
Proof. vm_compute. reflexivity. Qed.

Example int16_1a : int16_text "1a" = Some 26%Z.
Proof. reflexivity. Qed.

Example int16_prefix : int16_text " -0x_1F " = Some (-31)%Z.
Proof. reflexivity. Qed.

Example int16_underscores : int16_text "1__0" = None.
Proof. reflexivity. Qed.

Example int16_not_hex : int16_text "10g3" = None.
Proof. reflexivity. Qed.

(** ** Text *)

Lemma append_cons x (a b : string) : String x a +:+ b = String x (a +:+ b).
Proof. done. Qed.

Lemma append_assoc (a b c : string) : (a +:+ b) +:+ c = a +:+ b +:+ c.
Proof. induction a as [|x a IH]; [done|]. by rewrite !append_cons, IH. Qed.

Lemma append_nil_r (a : string) : a +:+ "" = a.
Proof. induction a as [|x a IH]; [done|]. by rewrite append_cons, IH. Qed.

(** ** The pattern and the timestamp *)

Lemma span_fst p s : span p (span p s).1 = ((span p s).1, EmptyString).
Proof.
  induction s as [|c s IH]; [done|]. simpl.
  destruct (p c) eqn:Hc; [|done].
  destruct (span p s) as [a b]. simpl in *. by rewrite Hc, IH.
Qed.

Lemma span_whole p s a : span p s = (a, EmptyString) -> a = s.
Proof.
  revert a. induction s as [|c s IH]; intros a; simpl.
  - by intros [= <-].
  - destruct (p c); [|done]. destruct (span p s) as [a1 b1].
    intros [= <- ->]. f_equal. by apply IH.
Qed.

Lemma span_append p a c r :
  span p a = (a, EmptyString) -> p c = false ->
  span p (a +:+ String c r) = (a, String c r).
Proof.
  revert c r. induction a as [|x a IH]; intros c r Ha Hc.
  - simpl. by rewrite Hc.
  - rewrite append_cons. simpl in *. destruct (p x); [|done].
    destruct (span p a) as [a1 b1] eqn:Hs. injection Ha as -> ->.
    by rewrite (IH c r).
Qed.

(** what the pattern captures is a text of digits, a point, and a text
    of digits, neither of them empty *)
Lemma pattern_match_group line group1 :
  pattern_match line = Some group1 ->
  exists d1 d2, group1 = d1 +:+ "." +:+ d2 /\
                all_digits d1 = true /\ all_digits d2 = true.
Proof.
  unfold pattern_match. destruct line as [|c r0]; [done|].
  destruct c as [[] [] [] [] [] [] [] []]; try done.
  destruct (span is_space r0) as [sp r1].
  pose proof (span_fst is_digit r1) as H1.
  destruct (span is_digit r1) as [d1 r2]. simpl in H1.
  destruct d1 as [|x d1]; [done|].
  destruct r2 as [|c r3]; [done|].
  destruct c as [[] [] [] [] [] [] [] []]; try done.
  pose proof (span_fst is_digit r3) as H2.
  destruct (span is_digit r3) as [d2 r4]. simpl in H2.
  destruct d2 as [|y d2]; [done|].
  destruct r4 as [|c r5]; [done|].
  destruct c as [[] [] [] [] [] [] [] []]; try done.
  intros [= <-]. exists (String x d1), (String y d2).
  split; [done|]. unfold all_digits. by rewrite H1, H2.
Qed.

(** on such a text [float] rounds the quotient of the number that all
    the digits spell by the power of ten of the digits behind the point *)
Lemma float_of_decimal_parts d1 d2 :
  all_digits d1 = true -> all_digits d2 = true ->
  float_of_decimal (d1 +:+ "." +:+ d2)
  = binary64_of_ratio (digits_value (digits_value 0 d1) d2)
                      (10 ^ Z.of_nat (String.length d2)).
Proof.
  unfold all_digits, float_of_decimal. intros H1 H2.
  destruct (span is_digit d1) as [a1 b1] eqn:Hs1.
  destruct a1 as [|x a1]; [done|]. destruct b1; [|done].
  destruct (span is_digit d2) as [a2 b2] eqn:Hs2.
  destruct a2 as [|y a2]; [done|]. destruct b2; [|done].
  pose proof (span_whole _ _ _ Hs1) as <-.
  pose proof (span_whole _ _ _ Hs2) as <-.
  change ("." +:+ String y a2) with (String "."%char (String y a2)).
  rewrite (span_append is_digit _ "." _ Hs1) by done.
  by rewrite Hs2.
Qed.

(** ** The heap queue *)

Ltac rsimpl := cbn [mbind result_bind mret result_ret].

(** The counters of the two loops of the heap queue never cut a loop
    short: any counter that is large enough gives the same result. *)
Lemma siftdown_loop_fuel {A} (lt : A -> A -> bool) f1 : forall f2 heap newitem startpos pos,
  pos <= f1 -> pos <= f2 ->
  heapq.siftdown_loop lt f1 heap newitem startpos pos
  = heapq.siftdown_loop lt f2 heap newitem startpos pos.
Proof.
  induction f1 as [|f1 IH]; intros [|f2] heap newitem startpos pos H1 H2;
    cbn [heapq.siftdown_loop]; try done.
  - rewrite decide_False by lia. done.
  - rewrite decide_False by lia. done.
  - destruct (decide (startpos < pos)); [|done].
    destruct (getitem heap ((pos - 1) / 2)) as [parent|]; [|done]. rsimpl.
    destruct (lt newitem parent); [|done].
    destruct (setitem heap pos parent) as [heap'|]; [|done]. rsimpl.
    apply IH; lia.
Qed.

Lemma result_bind_ext {A B} (r : result A) (k1 k2 : A -> result B) :
  (forall a, k1 a = k2 a) -> r ≫= k1 = r ≫= k2.
Proof. intros Hk. destruct r; [apply Hk | done]. Qed.

Lemma siftup_loop_fuel {A} (lt : A -> A -> bool) f1 : forall f2 heap endpos pos childpos,
  endpos <= f1 + childpos -> endpos <= f2 + childpos ->
  heapq.siftup_loop lt f1 heap endpos pos childpos
  = heapq.siftup_loop lt f2 heap endpos pos childpos.
Proof.
  induction f1 as [|f1 IH]; intros [|f2] heap endpos pos childpos H1 H2;
    cbn [heapq.siftup_loop]; try done.
  - rewrite decide_False by lia. done.
  - rewrite decide_False by lia. done.
  - destruct (decide (childpos < endpos)); [|done].
    assert (forall c, childpos <= c ->
      (child ← getitem heap c; heap ← setitem heap pos child;
       heapq.siftup_loop lt f1 heap endpos c (2 * c + 1))
      = (child ← getitem heap c; heap ← setitem heap pos child;
         heapq.siftup_loop lt f2 heap endpos c (2 * c + 1))) as Htail.
    { intros c Hc. apply result_bind_ext. intros child.
      apply result_bind_ext. intros heap'. apply IH; lia. }
    destruct (decide (childpos + 1 < endpos)).
    + destruct (getitem heap childpos) as [x|]; [|done]. rsimpl.
      destruct (getitem heap (childpos + 1)) as [y|]; [|done]. rsimpl.
      destruct (lt x y); rsimpl; apply Htail; lia.
    + rsimpl. by apply Htail.
Qed.

Section heap_facts.
Context {A : Type} (lt : A -> A -> bool).
Hypothesis lt_irrefl : forall a, lt a a = false.
Hypothesis lt_trans : forall a b c, lt a b = true -> lt b c = true -> lt a c = true.
Hypothesis lt_total : forall a b, lt a b = false -> lt b a = false -> a = b.

Lemma le_refl a : le lt a a.
Proof. apply lt_irrefl. Qed.

Lemma lt_le a b : lt a b = true -> le lt a b.
Proof.
  intros Hab. unfold le. destruct (lt b a) eqn:Hba; [|done].
  rewrite <- (lt_irrefl a). symmetry. by apply lt_trans with b.
Qed.

Lemma le_trans a b c : le lt a b -> le lt b c -> le lt a c.
Proof.
  unfold le. intros Hab Hbc. destruct (lt c a) eqn:Hca; [|done].
  destruct (lt a b) eqn:Hlt.
  - rewrite <- Hbc. symmetry. by apply lt_trans with a.
  - assert (a = b) as -> by by apply lt_total. congruence.
Qed.

Lemma le_total a b : le lt a b \/ le lt b a.
Proof.
  unfold le. destruct (lt b a) eqn:Hba; [|by left].
  right. by apply lt_le.
Qed.

Lemma heap_ok_nil : heap_ok lt [].
Proof. intros i _ x p Hx. done. Qed.

Lemma heap_ok_root h r y :
  heap_ok lt h -> h !! 0 = Some r -> y ∈ h -> le lt r y.
Proof.
  intros Hh Hr [i Hi]%list_elem_of_lookup. revert y Hi.
  induction (lt_wf i) as [i _ IH]. intros y Hi.
  destruct (decide (i = 0)) as [->|Hne].
  - assert (y = r) as -> by congruence. apply le_refl.
  - assert (is_Some (h !! ((i - 1) / 2))) as [p Hp].
    { apply lookup_lt_is_Some. apply lookup_lt_Some in Hi. lia. }
    apply le_trans with p.
    + apply (IH ((i - 1) / 2)); [lia | done].
    + apply (Hh i); [lia | done | done].
Qed.

Lemma insert_delete_perm (l : list A) i x :
  i < length l -> <[i:=x]> l ≡ₚ x :: delete i l.
Proof.
  intros Hi. rewrite (delete_Permutation (<[i:=x]> l) i x).
  - f_equiv. rewrite !delete_take_drop.
    rewrite take_insert_ge by lia. rewrite drop_insert_lt by lia. done.
  - by apply list_lookup_insert_eq.
Qed.

(** moving the item at [j] to [i] and putting [x] at [j] holds the same
    items as putting [x] at [i] *)
Lemma move_perm (h : list A) i j x y :
  i ≠ j -> i < length h -> h !! j = Some y ->
  <[j:=x]> (<[i:=y]> h) ≡ₚ <[i:=x]> h.
Proof.
  intros Hne Hi Hj.
  assert (j < length h) as Hjlt by by eapply lookup_lt_Some.
  rewrite insert_delete_perm by (by rewrite length_insert).
  rewrite (insert_delete_perm h i x) by done. f_equiv.
  apply (Permutation_cons_inv (a := y)).
  rewrite <- (delete_Permutation (<[i:=y]> h) j y).
  - by apply insert_delete_perm.
  - by rewrite list_lookup_insert_ne.
Qed.

Lemma getitem_Some (h : list A) i x : h !! i = Some x -> getitem h i = Ok x.
Proof. unfold getitem. by intros ->. Qed.

Lemma setitem_lt (h : list A) i x : i < length h -> setitem h i x = Ok (<[i:=x]> h).
Proof. unfold setitem. intros. by rewrite decide_True. Qed.

Lemma siftdown_loop_ok fuel : forall (h : list A) newitem pos,
  pos <= fuel -> pos < length h -> down_inv lt h newitem pos ->
  exists h', heapq.siftdown_loop lt fuel h newitem 0 pos = Ok h' /\
             heap_ok lt h' /\ h' ≡ₚ <[pos:=newitem]> h.
Proof.
  induction fuel as [|fuel IH]; intros h newitem pos Hfuel Hpos [I1 I2];
    cbn [heapq.siftdown_loop].
  - assert (pos = 0) as -> by lia.
    rewrite setitem_lt by done. eexists; split; [done|]. split; [|done].
    intros i Hi. apply I1; lia.
  - destruct (decide (0 < pos)) as [Hgt|Hle]; cycle 1.
    { assert (pos = 0) as -> by lia.
      rewrite setitem_lt by done. eexists; split; [done|]. split; [|done].
      intros i Hi. apply I1; lia. }
    assert (is_Some (h !! ((pos - 1) / 2))) as [parent Hparent].
    { apply lookup_lt_is_Some. lia. }
    rewrite (getitem_Some _ _ _ Hparent). rsimpl.
    destruct (lt newitem parent) eqn:Hlt.
    + rewrite setitem_lt by done. rsimpl.
      destruct (IH (<[pos:=parent]> h) newitem ((pos - 1) / 2)) as (h' & Hrun & Hok & Hperm).
      * lia.
      * rewrite length_insert. lia.
      * split.
        -- intros i Hi Hne x p.
           destruct (decide (i = pos)) as [->|Hne2].
           ++ rewrite list_lookup_insert_ne by lia.
              rewrite list_lookup_insert_eq by done.
              rewrite list_lookup_insert_eq by (rewrite length_insert; lia).
              intros [= <-] [= <-]. by apply lt_le.
           ++ rewrite list_lookup_insert_ne by lia.
              rewrite list_lookup_insert_ne by lia. intros Hx.
              destruct (decide ((i - 1) / 2 = (pos - 1) / 2)) as [Heq|Hne3].
              ** rewrite Heq. rewrite list_lookup_insert_eq by (rewrite length_insert; lia).
                 intros [= <-]. apply le_trans with parent; [by apply lt_le|].
                 apply (I1 i Hi Hne2).
                 --- by rewrite list_lookup_insert_ne by lia.
                 --- rewrite list_lookup_insert_ne by lia. by rewrite Heq.
              ** rewrite list_lookup_insert_ne by lia.
                 destruct (decide ((i - 1) / 2 = pos)) as [Heq2|Hne4].
                 --- rewrite Heq2. rewrite list_lookup_insert_eq by done.
                     intros [= <-]. by apply (I2 i x parent).
                 --- rewrite list_lookup_insert_ne by lia. intros Hp.
                     apply (I1 i Hi Hne2); by rewrite list_lookup_insert_ne by lia.
        -- intros c x p Hpp Hc Hcp.
           assert (edge_ok lt (<[pos:=newitem]> h) ((pos - 1) / 2)) as Hup.
           { apply I1; lia. }
           rewrite (list_lookup_insert_ne _ pos ((_ - 1) / 2)) by lia. intros Hx Hp.
           assert (le lt p parent) as Hpparent.
           { apply Hup; by rewrite list_lookup_insert_ne by lia. }
           destruct (decide (c = pos)) as [->|Hne].
           ++ rewrite list_lookup_insert_eq in Hx by done. by injection Hx as <-.
           ++ rewrite list_lookup_insert_ne in Hx by done.
              apply le_trans with parent; [done|].
              apply (I1 c Hc Hne).
              ** by rewrite list_lookup_insert_ne by lia.
              ** rewrite list_lookup_insert_ne by lia. by rewrite Hcp.
      * exists h'. split; [done|]. split; [done|].
        rewrite Hperm. apply move_perm; [lia | done | done].
    + rewrite setitem_lt by done. eexists; split; [done|]. split; [|done].
      intros i Hi. destruct (decide (i = pos)) as [->|Hne]; [|by apply I1].
      intros x p. rewrite list_lookup_insert_eq by done.
      rewrite list_lookup_insert_ne by lia. intros [= <-] Hp.
      assert (p = parent) as -> by congruence. done.
Qed.

Lemma heappush_ok (h : list A) x :
  heap_ok lt h ->
  exists h', heapq.heappush lt h x = Ok h' /\ heap_ok lt h' /\ h' ≡ₚ x :: h.
Proof.
  intros Hh. unfold heapq.heappush, heapq.siftdown.
  rewrite length_app, Nat.add_sub. cbn [length].
  rewrite (getitem_Some (h ++ [x]) (length h) x)
    by (by rewrite lookup_app_r, Nat.sub_diag by lia).
  rsimpl.
  assert (<[length h:=x]> (h ++ [x]) = h ++ [x]) as Hid.
  { apply list_insert_id. by rewrite lookup_app_r, Nat.sub_diag by lia. }
  destruct (siftdown_loop_ok (length h) (h ++ [x]) x (length h))
    as (h' & Hrun & Hok & Hperm).
  - done.
  - rewrite length_app. simpl. lia.
  - split.
    + intros i Hi Hne y p. rewrite Hid. intros Hy Hp.
      assert (i < length h).
      { apply lookup_lt_Some in Hy. rewrite length_app in Hy. simpl in Hy. lia. }
      rewrite lookup_app_l in Hy by lia. rewrite lookup_app_l in Hp by lia.
      by apply (Hh i).
    + intros c y p _ Hc Hcp Hy. apply lookup_lt_Some in Hy.
      rewrite length_app in Hy. simpl in Hy. lia.
  - exists h'. split; [done|]. split; [done|].
    rewrite Hperm, Hid. by rewrite Permutation_app_comm.
Qed.

Lemma siftup_loop_ok fuel : forall (h : list A) pos,
  length h <= fuel + (2 * pos + 1) -> pos < length h -> up_inv lt h pos ->
  exists h' pos',
    heapq.siftup_loop lt fuel h (length h) pos (2 * pos + 1) = Ok (h', pos') /\
    length h' = length h /\ pos' < length h /\ length h <= 2 * pos' + 1 /\
    up_inv lt h' pos' /\
    forall x, <[pos':=x]> h' ≡ₚ <[pos:=x]> h.
Proof.
  induction fuel as [|fuel IH]; intros h pos Hfuel Hpos Hinv;
    cbn [heapq.siftup_loop].
  { exists h, pos. repeat split; try done; try lia; apply Hinv. }
  destruct (decide (2 * pos + 1 < length h)) as [Hlt|Hge]; cycle 1.
  { exists h, pos. repeat split; try done; try lia; apply Hinv. }
  destruct Hinv as [U1 U2].
  (* the child chosen, and that it is not above its sibling *)
  assert (exists c child,
    (if decide (2 * pos + 1 + 1 < length h)
     then l ← getitem h (2 * pos + 1); r ← getitem h (2 * pos + 1 + 1);
          Ok (if lt l r then 2 * pos + 1 else 2 * pos + 1 + 1)
     else Ok (2 * pos + 1)) = Ok c /\
    (c = 2 * pos + 1 \/ c = 2 * pos + 2) /\ c < length h /\
    h !! c = Some child /\
    forall s y, 0 < s -> (s - 1) / 2 = pos -> h !! s = Some y -> le lt child y)
    as (c & child & -> & Hc & Hclt & Hchild & Hmin).
  { assert (is_Some (h !! (2 * pos + 1))) as [l Hl] by (apply lookup_lt_is_Some; lia).
    destruct (decide (2 * pos + 1 + 1 < length h)) as [Hr|Hr].
    - assert (is_Some (h !! (2 * pos + 1 + 1))) as [r Hrr] by (apply lookup_lt_is_Some; lia).
      rewrite (getitem_Some _ _ _ Hl), (getitem_Some _ _ _ Hrr). rsimpl.
      destruct (lt l r) eqn:Hlr.
      + exists (2 * pos + 1), l. repeat split; [lia | lia | done |].
        intros s y Hs Hsp Hy.
        assert (s = 2 * pos + 1 \/ s = 2 * pos + 1 + 1) as [->| ->] by lia.
        * assert (y = l) as -> by congruence. apply le_refl.
        * assert (y = r) as -> by congruence. by apply lt_le.
      + exists (2 * pos + 1 + 1), r. repeat split; [lia | lia | done |].
        intros s y Hs Hsp Hy.
        assert (s = 2 * pos + 1 \/ s = 2 * pos + 1 + 1) as [->| ->] by lia.
        * assert (y = l) as -> by congruence. done.
        * assert (y = r) as -> by congruence. apply le_refl.
    - exists (2 * pos + 1), l. repeat split; [lia | lia | done |].
      intros s y Hs Hsp Hy.
      assert (s < length h) by by eapply lookup_lt_Some.
      assert (s = 2 * pos + 1) as -> by lia.
      assert (y = l) as -> by congruence. apply le_refl. }
  rsimpl. rewrite (getitem_Some _ _ _ Hchild). rsimpl.
  rewrite setitem_lt by done. rsimpl.
  destruct (IH (<[pos:=child]> h) c) as (h' & pos' & Hrun & Hlen & Hpos' & Hleaf & Hinv' & Hperm).
  - rewrite length_insert. lia.
  - by rewrite length_insert.
  - split.
    + intros i Hi Hic Hipc y p.
      destruct (decide (i = pos)) as [->|Hne].
      * rewrite list_lookup_insert_eq by done.
        rewrite list_lookup_insert_ne by lia. intros [= <-] Hp.
        apply (U2 c child p); [lia | lia | lia | done | done].
      * rewrite list_lookup_insert_ne by lia. intros Hy.
        destruct (decide ((i - 1) / 2 = pos)) as [Heq|Hne2].
        -- rewrite Heq, list_lookup_insert_eq by done. intros [= <-].
           by apply (Hmin i).
        -- rewrite list_lookup_insert_ne by lia. intros Hp.
           by apply (U1 i).
    + intros s y p Hcpos Hs Hsc.
      assert ((c - 1) / 2 = pos) as -> by lia.
      rewrite list_lookup_insert_ne by lia.
      rewrite list_lookup_insert_eq by done. intros Hy [= <-].
      apply (U1 s); [lia | lia | lia | done |]. by rewrite Hsc.
  - rewrite length_insert in *. exists h', pos'.
    split; [done|].
    repeat split; try done; try apply Hinv'.
    intros x. rewrite Hperm. apply move_perm; [lia | done | done].
Qed.

Lemma siftup_ok (h : list A) :
  0 < length h -> up_inv lt h 0 ->
  exists h', heapq.siftup lt h 0 = Ok h' /\ heap_ok lt h' /\ h' ≡ₚ h.
Proof.
  intros Hlen Hinv. unfold heapq.siftup.
  assert (is_Some (h !! 0)) as [newitem Hnew] by by apply lookup_lt_is_Some.
  rewrite (getitem_Some _ _ _ Hnew). rsimpl.
  destruct (siftup_loop_ok (length h) h 0)
    as (h2 & pos2 & -> & Hlen2 & Hpos2 & Hleaf & [U1 U2] & Hperm); [lia | done | done |].
  rsimpl. rewrite setitem_lt by lia. rsimpl.
  unfold heapq.siftdown.
  rewrite (getitem_Some _ pos2 newitem) by (apply list_lookup_insert_eq; lia).
  rsimpl.
  destruct (siftdown_loop_ok pos2 (<[pos2:=newitem]> h2) newitem pos2)
    as (h' & Hrun & Hok & Hperm').
  - done.
  - rewrite length_insert. lia.
  - unfold down_inv. rewrite list_insert_insert_eq. split.
    + intros i Hi Hne x p Hx Hp.
      destruct (decide ((i - 1) / 2 = pos2)) as [Heq|Hne2].
      * apply lookup_lt_Some in Hx. rewrite length_insert in Hx. lia.
      * rewrite list_lookup_insert_ne in Hx by lia.
        rewrite list_lookup_insert_ne in Hp by lia. by apply (U1 i).
    + intros c x p _ Hc Hcp Hx.
      apply lookup_lt_Some in Hx. rewrite length_insert in Hx. lia.
  - exists h'. split; [done|]. split; [done|].
    rewrite Hperm', list_insert_insert_eq, Hperm.
    by rewrite list_insert_id.
Qed.

Lemma heap_ok_app (h k : list A) : heap_ok lt (h ++ k) -> heap_ok lt h.
Proof.
  intros Hh i Hi x p Hx Hp. apply (Hh i Hi).
  - by apply lookup_app_l_Some.
  - by apply lookup_app_l_Some.
Qed.

(** [heappop] on a heap that is not empty returns a least item and
    leaves a heap of the other items *)
Lemma heappop_ok (h : list A) :
  heap_ok lt h -> h ≠ [] ->
  exists x h', heapq.heappop lt h = Ok (x, h') /\ heap_ok lt h' /\
               h ≡ₚ x :: h' /\ forall y, y ∈ h -> le lt x y.
Proof.
  intros Hh Hne. unfold heapq.heappop.
  destruct (last h) as [lastelt|] eqn:Hlast; cycle 1.
  { by apply last_None in Hlast. }
  apply last_Some in Hlast as [h0 ->].
  rewrite length_app, Nat.add_sub. cbn [length].
  rewrite take_app_length.
  destruct h0 as [|r t].
  - exists lastelt, []. split; [done|]. split; [apply heap_ok_nil|].
    split; [done|]. intros y ->%list_elem_of_singleton. apply le_refl.
  - rewrite setitem_lt by (simpl; lia). rsimpl.
    destruct (siftup_ok (<[0:=lastelt]> (r :: t))) as (h' & -> & Hok & Hperm).
    + simpl. lia.
    + split.
      * intros i Hi Hi0 Hip x p Hx Hp.
        apply heap_ok_app in Hh.
        destruct i as [|i]; [lia|].
        destruct ((S i - 1) / 2) as [|j] eqn:Hj; [lia|].
        apply (Hh (S i)); [lia | done |]. by rewrite Hj.
      * intros c x p Hlt. lia.
    + rsimpl. exists r, h'. split; [done|]. split; [done|]. split.
      * rewrite Hperm. simpl. f_equiv. by rewrite Permutation_app_comm.
      * intros y Hy. by apply (heap_ok_root (r :: t ++ [lastelt])).
Qed.
End heap_facts.

(** ** The order of the tuples *)

Lemma ascii_compare_refl c : Ascii.compare c c = Eq.
Proof. apply N.compare_refl. Qed.

Lemma string_compare_refl s : String.compare s s = Eq.
Proof. induction s as [|c s IH]; [done|]. simpl. by rewrite ascii_compare_refl. Qed.

Lemma string_compare_lt_trans a : forall b c,
  String.compare a b = Lt -> String.compare b c = Lt -> String.compare a c = Lt.
Proof.
  induction a as [|x a IH]; intros [|y b] [|z c]; simpl; try done.
  unfold Ascii.compare.
  destruct (N.compare_spec (N_of_ascii x) (N_of_ascii y)) as [Hxy|Hxy|Hxy];
    destruct (N.compare_spec (N_of_ascii y) (N_of_ascii z)) as [Hyz|Hyz|Hyz];
    try done; intros Hab Hbc.
  - rewrite Hxy, Hyz, N.compare_refl. by apply IH with b.
  - rewrite Hxy. by apply N.compare_lt_iff in Hyz as ->.
  - rewrite <- Hyz. by apply N.compare_lt_iff in Hxy as ->.
  - assert (N_of_ascii x < N_of_ascii z)%N as Hxz by lia.
    by apply N.compare_lt_iff in Hxz as ->.
Qed.

Lemma string_ltb_total a b : String.ltb a b = false -> String.ltb b a = false -> a = b.
Proof.
  unfold String.ltb. rewrite (String.compare_antisym b a).
  destruct (String.compare a b) eqn:Hab; try done.
  intros _ _. by apply String.compare_eq_iff.
Qed.

Lemma entry_lt_irrefl a : entry_lt a a = false.
Proof.
  unfold entry_lt. rewrite Z.eqb_refl, Nat.eqb_refl. simpl.
  unfold String.ltb. by rewrite string_compare_refl.
Qed.

Lemma entry_lt_trans a b c :
  entry_lt a b = true -> entry_lt b c = true -> entry_lt a c = true.
Proof.
  unfold entry_lt.
  destruct (Z.eqb_spec (timestamp a) (timestamp b)) as [Hab|Hab];
  destruct (Z.eqb_spec (timestamp b) (timestamp c)) as [Hbc|Hbc];
  destruct (Z.eqb_spec (timestamp a) (timestamp c)) as [Hac|Hac];
    simpl; try lia.
  destruct (Nat.eqb_spec (sequence a) (sequence b)) as [Sab|Sab];
  destruct (Nat.eqb_spec (sequence b) (sequence c)) as [Sbc|Sbc];
  destruct (Nat.eqb_spec (sequence a) (sequence c)) as [Sac|Sac];
    simpl; rewrite ?Nat.ltb_lt; try lia.
  unfold String.ltb.
  destruct (String.compare (text a) (text b)) eqn:H1; try done.
  destruct (String.compare (text b) (text c)) eqn:H2; try done.
  by rewrite (string_compare_lt_trans _ _ _ H1 H2).
Qed.

Lemma entry_lt_total a b :
  entry_lt a b = false -> entry_lt b a = false -> a = b.
Proof.
  destruct a as [[ta ca] sa], b as [[tb cb] sb].
  unfold entry_lt, timestamp, sequence, text. simpl.
  destruct (Z.eqb_spec ta tb) as [Hab|Hab];
  destruct (Z.eqb_spec tb ta) as [Hba|Hba]; simpl; try lia.
  destruct (Nat.eqb_spec ca cb) as [Sab|Sab];
  destruct (Nat.eqb_spec cb ca) as [Sba|Sba]; simpl;
    rewrite ?Nat.ltb_ge; try lia.
  intros H1 H2. by rewrite Hab, Sab, (string_ltb_total _ _ H1 H2).
Qed.

(** ** merge-logs.py: the records of the sources *)

Lemma lines_from_nonempty s : forall cur,
  Forall (fun l => l ≠ EmptyString) (lines_from cur s).
Proof.
  induction s as [|c s IH]; intros cur; simpl.
  - destruct cur; [constructor|]. by repeat constructor.
  - destruct (is_nl c).
    + constructor; [|apply IH]. by destruct cur.
    + apply IH.
Qed.

Lemma numbered_cons count r recs :
  numbered count (r :: recs) = (r.1, count, r.2) :: numbered (count + 1) recs.
Proof.
  unfold numbered. rewrite imap_cons, Nat.add_0_r. f_equal.
  apply imap_ext. intros i x _. simpl. do 2 f_equal. lia.
Qed.

Lemma numbered_app count a b :
  numbered count (a ++ b) = numbered count a ++ numbered (count + length a) b.
Proof.
  unfold numbered. rewrite imap_app. f_equal.
  apply imap_ext. intros i x _. simpl. do 2 f_equal. lia.
Qed.

Lemma length_numbered count recs : length (numbered count recs) = length recs.
Proof. apply length_imap. Qed.

Lemma push_all_app heap a b :
  push_all heap (a ++ b) = heap ← push_all heap a; push_all heap b.
Proof.
  revert heap. induction a as [|e a IH]; intros heap; simpl; [done|].
  destruct (heapq.heappush entry_lt heap e); simpl; [apply IH|done].
Qed.

Lemma read_file_records raw : forall entry heap count,
  Forall (fun l => l ≠ EmptyString) raw ->
  is_Some entry \/ starts_ok (rstrip_nl <$> raw) = true ->
  read_file raw entry heap count =
    heap ← push_all heap
      (pending entry (rstrip_nl <$> raw) ++
       numbered count (records (rstrip_nl <$> raw)));
    Ok (heap, count + length (records (rstrip_nl <$> raw))).
Proof.
  induction raw as [|l raw IH]; intros entry heap count Hne Hstart.
  - simpl. rewrite Nat.add_0_r. destruct entry as [[[t c] s]|]; simpl; [|done].
    unfold timestamp, sequence, text. simpl. rewrite append_nil_r.
    by destruct (heapq.heappush _ _ _).
  - apply Forall_cons in Hne as [Hl Hne]. cbn [read_file fmap list_fmap].
    rewrite decide_False by done.
    cbn [records continuation]. unfold boundary.
    destruct (pattern_match (rstrip_nl l)) as [g|] eqn:Hm.
    + rewrite numbered_cons. cbn [fst snd length].
      assert (forall h, read_file raw (Some (float_of_decimal g, count, rstrip_nl l)) h (count + 1)
        = heap ← push_all h ((float_of_decimal g, count,
                              rstrip_nl l +:+ continuation (rstrip_nl <$> raw))
                             :: numbered (count + 1) (records (rstrip_nl <$> raw)));
          Ok (heap, count + S (length (records (rstrip_nl <$> raw))))) as Hrest.
      { intros h. rewrite (IH _ _ _ Hne) by (left; done).
        cbn [pending app]. unfold timestamp, sequence, text. cbn [fst snd].
        by replace (count + 1 + length (records (rstrip_nl <$> raw)))
          with (count + S (length (records (rstrip_nl <$> raw)))) by lia. }
      destruct entry as [[[t c] s]|]; cbn [push_pending pending app].
      * unfold timestamp, sequence, text. cbn [fst snd continuation].
        unfold boundary. rewrite Hm, append_nil_r. cbn [push_all].
        destruct (heapq.heappush _ _ _) as [h1|]; rsimpl; [|done].
        apply Hrest.
      * rsimpl. apply Hrest.
    + destruct entry as [e|]; cycle 1.
      { destruct Hstart as [[? [=]]|Hs]. simpl in Hs. unfold boundary in Hs.
        by rewrite Hm in Hs. }
      rewrite (IH _ _ _ Hne) by (left; done).
      cbn [pending continuation]. unfold boundary. rewrite Hm.
      unfold timestamp, sequence, text. cbn [fst snd].
      by rewrite !append_assoc.
Qed.

Lemma read_file_leading l raw heap count :
  l ≠ EmptyString -> boundary (rstrip_nl l) = false ->
  read_file (l :: raw) None heap count = Raise IndexError.
Proof.
  intros Hl Hb. simpl. rewrite decide_False by done.
  unfold boundary in Hb. by destruct (pattern_match (rstrip_nl l)).
Qed.

Lemma push_all_ok es : forall heap,
  heap_ok entry_lt heap ->
  exists heap', push_all heap es = Ok heap' /\ heap_ok entry_lt heap' /\
                heap' ≡ₚ heap ++ es.
Proof.
  induction es as [|e es IH]; intros heap Hh; simpl.
  - exists heap. by rewrite app_nil_r.
  - destruct (heappush_ok entry_lt entry_lt_irrefl entry_lt_trans entry_lt_total heap e Hh)
      as (h1 & -> & Hok1 & Hperm1).
    rsimpl. destruct (IH h1 Hok1) as (h2 & -> & Hok2 & Hperm2).
    exists h2. split; [done|]. split; [done|].
    rewrite Hperm2, Hperm1. by rewrite <- Permutation_middle.
Qed.

Lemma read_files_records files : forall heap count,
  Forall (Forall (fun l => l ≠ EmptyString)) files ->
  Forall (fun file => starts_ok (rstrip_nl <$> file) = true) files ->
  read_files files heap count =
    heap ← push_all heap
      (numbered count
         (concat ((fun file => records (rstrip_nl <$> file)) <$> files)));
    Ok (heap, count +
        length (concat ((fun file => records (rstrip_nl <$> file)) <$> files))).
Proof.
  induction files as [|file files IH]; intros heap count Hne Hok.
  - simpl. by rewrite Nat.add_0_r.
  - apply Forall_cons in Hne as [Hne1 Hne]. apply Forall_cons in Hok as [Hok1 Hok].
    cbn [read_files fmap list_fmap concat].
    rewrite (read_file_records file None heap count Hne1) by (by right).
    cbn [pending app]. rewrite numbered_app, push_all_app, length_app.
    destruct (push_all heap _) as [h1|]; rsimpl; [|done].
    rewrite (IH _ _ Hne Hok). by rewrite Nat.add_assoc.
Qed.

Lemma read_files_leading files : forall heap count,
  heap_ok entry_lt heap ->
  Forall (Forall (fun l => l ≠ EmptyString)) files ->
  ¬ Forall (fun file => starts_ok (rstrip_nl <$> file) = true) files ->
  read_files files heap count = Raise IndexError.
Proof.
  induction files as [|file files IH]; intros heap count Hh Hne Hbad.
  - destruct Hbad. constructor.
  - apply Forall_cons in Hne as [Hne1 Hne]. cbn [read_files].
    destruct (starts_ok (rstrip_nl <$> file)) eqn:Hs.
    + rewrite (read_file_records file None heap count Hne1) by (by right).
      cbn [pending app].
      destruct (push_all_ok (numbered count (records (rstrip_nl <$> file))) heap Hh)
        as (h1 & -> & Hok1 & _).
      rsimpl. apply IH; [done | done |].
      intros Hall. apply Hbad. by constructor.
    + destruct file as [|l file]; [done|].
      apply Forall_cons in Hne1 as [Hl _].
      by rewrite read_file_leading.
Qed.

Lemma drain_ok fuel : forall heap,
  length heap <= fuel -> heap_ok entry_lt heap ->
  exists popped, drain fuel heap = Ok (text <$> popped) /\
                 popped ≡ₚ heap /\ StronglySorted (le entry_lt) popped.
Proof.
  induction fuel as [|fuel IH]; intros heap Hfuel Hh.
  - destruct heap; [|simpl in Hfuel; lia]. exists []. repeat split; constructor.
  - destruct heap as [|e0 heap0] eqn:Hheap.
    { exists []. repeat split; constructor. }
    rewrite <- Hheap in *. assert (heap ≠ []) as Hne by (by subst).
    destruct (heappop_ok entry_lt entry_lt_irrefl entry_lt_trans entry_lt_total heap Hh Hne)
      as (x & h' & Hpop & Hok & Hperm & Hmin).
    assert (drain (S fuel) heap =
            '(e, heap) ← heapq.heappop entry_lt heap;
            out ← drain fuel heap; Ok (text e :: out)) as -> by by subst.
    rewrite Hpop. rsimpl.
    destruct (IH h') as (popped & -> & Hperm' & Hsorted).
    + apply Permutation_length in Hperm. simpl in Hperm. lia.
    + done.
    + rsimpl. exists (x :: popped). split; [done|]. split.
      * by rewrite Hperm, Hperm'.
      * constructor; [done|]. apply Forall_forall. intros y Hy.
        apply Hmin. rewrite Hperm. right. by rewrite <- Hperm'.
Qed.

Lemma open_nonempty logs :
  Forall (Forall (fun l => l ≠ EmptyString)) (map open_ logs).
Proof.
  apply Forall_forall. intros file [text [-> _]]%list_elem_of_fmap.
  apply lines_from_nonempty.
Qed.

Lemma merge_logs_run logs :
  well_formed logs ->
  exists popped, merge_logs logs = Ok (text <$> popped) /\
                 popped ≡ₚ finalized logs /\
                 StronglySorted (le entry_lt) popped.
Proof.
  intros Hwf. unfold merge_logs.
  rewrite read_files_records; [|apply open_nonempty|by apply Forall_fmap].
  destruct (push_all_ok
    (numbered 0 (concat ((fun file => records (rstrip_nl <$> file)) <$> map open_ logs)))
    [] (heap_ok_nil entry_lt)) as (heap & -> & Hok & Hperm).
  rsimpl. destruct (drain_ok (length heap) heap) as (popped & -> & Hperm' & Hsorted);
    [done | done |].
  exists popped. split; [done|]. split; [|done].
  rewrite Hperm', Hperm. simpl. unfold finalized.
  by rewrite <- list_fmap_compose.
Qed.

Lemma merge_logs_leading logs :
  ¬ well_formed logs -> merge_logs logs = Raise IndexError.
Proof.
  intros Hbad. unfold merge_logs.
  rewrite read_files_leading; [done | apply heap_ok_nil | apply open_nonempty |].
  intros Hall. apply Hbad. by apply Forall_fmap in Hall.
Qed.

Lemma StronglySorted_weaken {A} (R S : A -> A -> Prop) l :
  (forall a b, R a b -> S a b) -> StronglySorted R l -> StronglySorted S l.
Proof.
  intros HRS. induction 1 as [|x l Hl IH Hx]; constructor; [done|].
  eapply Forall_impl; [done|]. intros y. apply HRS.
Qed.

Lemma StronglySorted_lookup_lt {A} (R : A -> A -> Prop) l : forall i j a b,
  StronglySorted R l -> i < j -> l !! i = Some a -> l !! j = Some b -> R a b.
Proof.
  induction l as [|x l IH]; intros i j a b Hs Hij Ha Hb; [done|].
  apply StronglySorted_inv in Hs as [Hs Hx].
  destruct j as [|j]; [lia|]. destruct i as [|i]; simpl in *.
  - injection Ha as <-. rewrite Forall_forall in Hx. apply Hx.
    by eapply list_elem_of_lookup_2.
  - apply (IH i j); [done | lia | done | done].
Qed.

Lemma le_timestamp a b : le entry_lt a b -> (timestamp a <= timestamp b)%Z.
Proof.
  unfold le, entry_lt.
  destruct (Z.eqb_spec (timestamp b) (timestamp a)) as [->|Hne]; simpl; lia.
Qed.

Lemma finalized_sequence logs i a : finalized logs !! i = Some a -> sequence a = i.
Proof.
  unfold finalized, numbered. rewrite list_lookup_imap.
  destruct (_ !! i); [|done]. by intros [= <-].
Qed.

Lemma length_records lines :
  length (records lines) = length (filter (fun l => boundary l = true) lines).
Proof.
  induction lines as [|l lines IH]; [done|].
  rewrite filter_cons. cbn [records].
  destruct (decide (boundary l = true)) as [Hb|Hb]; unfold boundary in Hb;
    destruct (pattern_match l); try done; simpl; by rewrite IH.
Qed.

Lemma length_finalized logs : length (finalized logs) = boundary_lines logs.
Proof.
  unfold finalized, boundary_lines. rewrite length_numbered.
  induction logs as [|text logs IH]; [done|].
  cbn [fmap list_fmap concat sum_list sum_list_with]. rewrite length_app, IH.
  by rewrite length_records.
Qed.

(** C1. The records [merge_logs] prints are the finalized records,
    sorted so that the timestamps never decrease; of two records with
    the same timestamp, the one finalized first is printed first.
    (The sources are read one after another in the order of the
    arguments, a source from top to bottom: [finalized].) *)
Theorem merge_logs_sorted_stable (logs : list string) (out : list string) :
  merge_logs logs = Ok out ->
  exists popped,
    out = text <$> popped /\
    popped ≡ₚ finalized logs /\
    StronglySorted (fun a b => (timestamp a <= timestamp b)%Z) popped /\
    forall i j a b,
      i < j -> finalized logs !! i = Some a -> finalized logs !! j = Some b ->
      timestamp a = timestamp b ->
      exists i' j', i' < j' /\ popped !! i' = Some a /\ popped !! j' = Some b.
Proof.
  intros Hrun.
  destruct (decide (well_formed logs)) as [Hwf|Hbad]; cycle 1.
  { rewrite merge_logs_leading in Hrun by done. done. }
  destruct (merge_logs_run logs Hwf) as (popped & Hrun' & Hperm & Hsorted).
  exists popped. split; [congruence|]. split; [done|]. split.
  { eapply StronglySorted_weaken; [|done]. apply le_timestamp. }
  intros i j a b Hij Ha Hb Hts.
  assert (a ∈ popped) as [i' Hi']%list_elem_of_lookup.
  { rewrite Hperm. by eapply list_elem_of_lookup_2. }
  assert (b ∈ popped) as [j' Hj']%list_elem_of_lookup.
  { rewrite Hperm. by eapply list_elem_of_lookup_2. }
  apply finalized_sequence in Ha, Hb.
  assert (entry_lt a b = true) as Hlt.
  { unfold entry_lt. rewrite Hts, Z.eqb_refl. simpl.
    destruct (Nat.eqb_spec (sequence a) (sequence b)); simpl; [lia|].
    apply Nat.ltb_lt. lia. }
  exists i', j'. split; [|done].
  destruct (decide (i' < j')) as [|Hge]; [done|].
  destruct (decide (i' = j')) as [->|Hne].
  - assert (a = b) as -> by congruence. by rewrite entry_lt_irrefl in Hlt.
  - pose proof (StronglySorted_lookup_lt _ _ j' i' b a Hsorted) as Hle.
    unfold le in Hle. rewrite Hle in Hlt; [done | lia | done | done].
Qed.

Lemma merge_logs_sorted_stable_witness :
  merge_logs example_ties = Ok ["[1.0] b"; "[1.00] c"; "[ 1.0] d"; "[2.0] a"] /\
  exists popped,
    ["[1.0] b"; "[1.00] c"; "[ 1.0] d"; "[2.0] a"] = text <$> popped /\
    popped ≡ₚ finalized example_ties /\
    StronglySorted (fun a b => (timestamp a <= timestamp b)%Z) popped /\
    forall i j a b,
      i < j -> finalized example_ties !! i = Some a ->
      finalized example_ties !! j = Some b ->
      timestamp a = timestamp b ->
      exists i' j', i' < j' /\ popped !! i' = Some a /\ popped !! j' = Some b.
Proof.
  split; [vm_compute; reflexivity|].
  apply (merge_logs_sorted_stable example_ties).
  vm_compute. reflexivity.
Defined.

(** C2, as stated: the number of records printed is the number of
    boundary lines, and a source without boundary line is dropped.  It
    fails on a source that starts with a continuation line: nothing is
    printed although a boundary line follows, and a source that holds
    only a continuation line makes the run raise. *)
Lemma merge_logs_count_counterexample :
  length (printed (merge_logs ["cont" +:+ String nl "[1.0] a"])) = 0 /\
  boundary_lines ["cont" +:+ String nl "[1.0] a"] = 1 /\
  merge_logs ["cont"] = Raise IndexError.
Proof. vm_compute. done. Qed.

(** C2, amended.  When every source is empty or starts with a boundary
    line, [merge_logs] prints as many records as there are boundary
    lines in all the sources; otherwise it raises [IndexError] and
    prints nothing. *)
Theorem merge_logs_count (logs : list string) :
  (well_formed logs /\
   exists out, merge_logs logs = Ok out /\ length out = boundary_lines logs) \/
  (¬ well_formed logs /\ merge_logs logs = Raise IndexError).
Proof.
  destruct (decide (well_formed logs)) as [Hwf|Hbad].
  - left. split; [done|].
    destruct (merge_logs_run logs Hwf) as (popped & -> & Hperm & _).
    eexists. split; [done|].
    by rewrite length_fmap, Hperm, length_finalized.
  - right. split; [done|]. by apply merge_logs_leading.
Qed.

(** C3, as stated: leading continuation lines are dropped without
    error.  The run raises [IndexError] instead. *)
Lemma merge_logs_leading_counterexample :
  source_lines ("cont" +:+ String nl "[3.0] world") = ["cont"; "[3.0] world"] /\
  boundary "cont" = false /\
  merge_logs ["cont" +:+ String nl "[3.0] world"] = Raise IndexError.
Proof. vm_compute. done. Qed.

(** C3, amended.  When the first line of one of the sources is a
    continuation line, [merge_logs] raises [IndexError] and prints no
    record. *)
Theorem merge_logs_leading_continuation (logs : list string) (source : string)
    (first : string) (rest : list string) :
  source ∈ logs ->
  source_lines source = first :: rest ->
  boundary first = false ->
  merge_logs logs = Raise IndexError /\ printed (merge_logs logs) = [].
Proof.
  intros Hin Hlines Hb.
  assert (merge_logs logs = Raise IndexError) as ->; [|done].
  apply merge_logs_leading. intros Hwf.
  unfold well_formed in Hwf. rewrite Forall_forall in Hwf.
  specialize (Hwf source Hin). rewrite Hlines in Hwf. simpl in Hwf. congruence.
Qed.

Lemma merge_logs_leading_continuation_witness :
  merge_logs ["[2.0] foo"; "cont" +:+ String nl "[3.0] world"] = Raise IndexError /\
  printed (merge_logs ["[2.0] foo"; "cont" +:+ String nl "[3.0] world"]) = [].
Proof.
  apply (merge_logs_leading_continuation
           ["[2.0] foo"; "cont" +:+ String nl "[3.0] world"]
           ("cont" +:+ String nl "[3.0] world") "cont" ["[3.0] world"]).
  - apply list_elem_of_In. simpl. right. by left.
  - vm_compute. reflexivity.
  - vm_compute. reflexivity.
Defined.

(** C9, as stated: the three texts printed are the records without
    their timestamps. *)
Lemma merge_logs_example_counterexample :
  merge_logs [example_A; example_B]
    ≠ Ok ["hello" +:+ String nl "cont"; "foo"; "world"].
Proof. vm_compute. discriminate. Qed.

(** C9, amended.  For the two files of the example [merge_logs] prints
    the three records in the order of their timestamps, each with its
    lines as they are in the file, the bracketed timestamp included. *)
Theorem merge_logs_example :
  merge_logs [example_A; example_B]
    = Ok ["[1.0] hello" +:+ String nl "cont"; "[2.0] foo"; "[3.0] world"].
Proof. vm_compute. reflexivity. Qed.

(** ** util.py *)

Ltac by_cases_on_char c :=
  destruct c as [[] [] [] [] [] [] [] []]; vm_compute in *; congruence.

Lemma hex_digit_not_space c d : hex_digit c = Some d -> is_int_space c = false.
Proof. intros H. by_cases_on_char c. Qed.

Lemma hex_digit_not_underscore c d : hex_digit c = Some d -> is_underscore c = false.
Proof. intros H. by_cases_on_char c. Qed.

Lemma hex_digit_not_sign c d s :
  hex_digit c = Some d -> strip_sign (String c s) = (false, String c s).
Proof. intros H. unfold strip_sign. destruct c as [[] [] [] [] [] [] [] []]; try done; by vm_compute in H. Qed.

Lemma hex_digit_not_x c d :
  hex_digit c = Some d -> (code c =? 120)%N || (code c =? 88)%N = false.
Proof. intros H. by_cases_on_char c. Qed.

Lemma scan_hex_digits s : forall acc seen n,
  hex_value acc s = Some n -> seen = true \/ s ≠ EmptyString ->
  scan_hex s false seen acc = Some (n, EmptyString).
Proof.
  induction s as [|c s IH]; intros acc seen n Hv Hs; simpl in *.
  - destruct Hs as [->|]; [|done]. simpl. congruence.
  - destruct (hex_digit c) as [d|] eqn:Hd; [|done].
    rewrite (hex_digit_not_underscore _ _ Hd). apply IH; [done | by left].
Qed.

(** on a text of hexadecimal digits [int(text, 16)] is the number they spell *)
Lemma int16_text_digits c s n :
  hex_value 0 (String c s) = Some n -> int16_text (String c s) = Some n.
Proof.
  intros Hv. assert (exists d, hex_digit c = Some d) as [d Hd].
  { simpl in Hv. destruct (hex_digit c); [by eexists | done]. }
  unfold int16_text. cbn [span]. rewrite (hex_digit_not_space _ _ Hd). cbn [snd].
  rewrite (hex_digit_not_sign _ _ _ Hd).
  assert (strip_0x (String c s) = String c s) as ->.
  { unfold strip_0x.
    destruct c as [[] [] [] [] [] [] [] []]; try done.
    destruct s as [|x s]; [done|].
    simpl in Hv. destruct (hex_digit x) as [dx|] eqn:Hx; [|done].
    by rewrite (hex_digit_not_x _ _ Hx). }
  rewrite (scan_hex_digits _ 0 false n Hv) by (by right).
  pose proof (hex_digit_not_underscore _ _ Hd) as Hu.
  destruct c as [[] [] [] [] [] [] [] []]; done.
Qed.

(** C7, as stated: [convert_int] does nothing, without error, when the
    field is absent from the row.  It raises [KeyError]. *)
Lemma convert_int_counterexample :
  ({[ Some "vendor" := VStr "8086" ]} : gmap (option string) value) !! Some "route" = None /\
  convert_int {[ Some "vendor" := VStr "8086" ]} "route" = Raise KeyError.
Proof. vm_compute. done. Qed.

(** C7, amended.  [convert_int(fields, name)] raises [KeyError] when
    [fields] has no key [name]; it leaves [fields] as it is when the
    value is the empty text or [None]; when the value is a text that is
    not empty it stores [int(value, 16)] in its place, and raises
    [ValueError] when the text is not a number in base 16. *)
Theorem convert_int_cases (fields : gmap (option string) value) (name : string) :
  (fields !! Some name = None -> convert_int fields name = Raise KeyError) /\
  (fields !! Some name = Some (VStr "") \/ fields !! Some name = Some VNone ->
   convert_int fields name = Ok fields) /\
  (forall s n, fields !! Some name = Some (VStr s) -> s ≠ EmptyString ->
     int16_text s = Some n ->
     convert_int fields name = Ok (<[Some name := VInt n]> fields)) /\
  (forall s, fields !! Some name = Some (VStr s) -> s ≠ EmptyString ->
     int16_text s = None -> convert_int fields name = Raise ValueError).
Proof.
  unfold convert_int, dict_get. repeat split.
  - by intros ->.
  - by intros [-> | ->].
  - intros s n -> Hs Hn. rsimpl. cbn [truthy].
    destruct (String.eqb_spec s ""); [done|]. simpl. by rewrite Hn.
  - intros s -> Hs Hn. rsimpl. cbn [truthy].
    destruct (String.eqb_spec s ""); [done|]. simpl. by rewrite Hn.
Qed.

(** ** process-devices.py *)

(** C8, as stated: the row with [vendor=8086] is written with
    [vendor=34342].  The cell written is 32902. *)
Lemma process_devices_example_counterexample :
  exists rows cells,
    process_devices [device_names; example_device_row "0" "1" "0" "Intel" "NUC" "Router"]
      = (rows, Ok ()) /\
    rows !! 1 = Some cells /\
    device_names !! 4 = Some "vendor" /\
    cells !! 4 = Some (VInt 32902) /\
    cells !! 4 ≠ Some (VInt 34342).
Proof. do 2 eexists. vm_compute. repeat split; done. Qed.

(** C8, amended.  For an input row with [route=1a], [vendor=8086] and
    [device=10d3] the row written has [route=26], [vendor=32902] and
    [device=4307], the numbers the texts spell in base 16; the other
    cells are written as they are. *)
Theorem process_devices_example
    (domain adapter index vendor_name device_name type : string) :
  process_devices
    [device_names;
     example_device_row domain adapter index vendor_name device_name type]
  = ([header_cells device_names;
      [VStr domain; VInt 26; VStr adapter; VStr index; VInt 32902; VInt 4307;
       VStr vendor_name; VStr device_name; VStr type]],
     Ok ()).
Proof. vm_compute. reflexivity. Qed.

Lemma keeps_blank_refl fields : keeps_blank fields fields.
Proof. by split. Qed.

Lemma keeps_blank_trans a b c : keeps_blank a b -> keeps_blank b c -> keeps_blank a c.
Proof.
  intros [Hd1 H1] [Hd2 H2]. split; [congruence|].
  intros k. split; intros Hk.
  - by apply H2, H1.
  - by apply H2, H1.
Qed.

Lemma convert_int_keeps fields name fields' :
  convert_int fields name = Ok fields' -> keeps_blank fields fields'.
Proof.
  unfold convert_int, dict_get.
  destruct (fields !! Some name) as [v|] eqn:Hv; [|done]. rsimpl.
  destruct (truthy v) eqn:Ht; cycle 1.
  { intros [= <-]. apply keeps_blank_refl. }
  destruct (int16 v) as [n|]; [|done]. rsimpl. intros [= <-]. split.
  - rewrite dom_insert_L. apply subseteq_union_1_L, singleton_subseteq_l.
    by apply elem_of_dom.
  - intros k. destruct (decide (k = Some name)) as [->|Hne].
    + rewrite Hv. split; [done|]. intros [= ->]. done.
    + by rewrite lookup_insert_ne.
Qed.

Lemma writerow_ok names row cells :
  writerow names row = Ok cells ->
  dom row ⊆ list_to_set (Some <$> names) /\
  cells = (fun name => default (VStr "") (row !! Some name)) <$> names.
Proof.
  unfold writerow. destruct (decide _) as [Hsub|]; [|done].
  intros [= <-]. done.
Qed.

Lemma writerow_written names row row' cells :
  keeps_blank row row' -> writerow names row' = Ok cells -> written names row cells.
Proof.
  intros [Hdom Hkeep] [Hsub ->]%writerow_ok. split; [by rewrite <- Hdom|].
  split; [by rewrite length_fmap|].
  intros i name Hi Hblank. rewrite list_lookup_fmap, Hi. simpl.
  eexists. split; [done|]. destruct Hblank as [Hn|Hn].
  - apply Hkeep in Hn. rewrite Hn. by right.
  - apply Hkeep in Hn. rewrite Hn. by left.
Qed.

Lemma device_row_written row cells :
  device_row row = Ok cells -> written device_names row cells.
Proof.
  unfold device_row.
  destruct (convert_int row "route") as [r1|] eqn:H1; [|done]. rsimpl.
  destruct (convert_int r1 "vendor") as [r2|] eqn:H2; [|done]. rsimpl.
  destruct (convert_int r2 "device") as [r3|] eqn:H3; [|done]. rsimpl.
  apply writerow_written.
  apply keeps_blank_trans with r1; [by eapply convert_int_keeps|].
  apply keeps_blank_trans with r2; by eapply convert_int_keeps.
Qed.

Lemma convert_int_present fields name fields' :
  convert_int fields name = Ok fields' -> Some name ∈ dom fields.
Proof.
  unfold convert_int, dict_get. intros Hrun. apply elem_of_dom.
  by destruct (fields !! Some name).
Qed.

Lemma device_row_columns row cells :
  device_row row = Ok cells ->
  Forall (fun name => is_Some (row !! Some name)) ["route"; "vendor"; "device"].
Proof.
  unfold device_row.
  destruct (convert_int row "route") as [r1|] eqn:H1; [|done]. rsimpl.
  destruct (convert_int r1 "vendor") as [r2|] eqn:H2; [|done]. rsimpl.
  destruct (convert_int r2 "device") as [r3|] eqn:H3; [|done]. rsimpl.
  intros _.
  destruct (convert_int_keeps _ _ _ H1) as [Hd1 _].
  destruct (convert_int_keeps _ _ _ H2) as [Hd2 _].
  apply convert_int_present in H1, H2, H3.
  rewrite Hd2, Hd1 in H3. rewrite Hd1 in H2.
  repeat constructor; by apply elem_of_dom.
Qed.

Lemma devices_loop_rows reader : forall out out' r,
  devices_loop reader out = (out', r) ->
  exists rows, out' = out ++ rows /\
    length rows <= length reader /\
    (forall j cells, rows !! j = Some cells ->
       exists row, reader !! j = Some row /\ device_row row = Ok cells) /\
    (r = Ok () -> length rows = length reader).
Proof.
  induction reader as [|row reader IH]; intros out out' r; simpl.
  - intros [= <- <-]. exists []. rewrite app_nil_r. repeat split; try done.
  - destruct (device_row row) as [cells|e] eqn:Hrow.
    + intros (rows & -> & Hlen & Hrows & Hall)%IH.
      exists (cells :: rows). rewrite <- app_assoc. split; [done|].
      split; [simpl; lia|]. split.
      * intros [|j] c; simpl; [|by apply Hrows].
        intros [= <-]. by exists row.
      * intros Hr. simpl. by rewrite Hall.
    + intros [= <- <-]. exists []. rewrite app_nil_r.
      repeat split; try done; simpl; lia.
Qed.

(** C6, as stated: the columns of the input that are not in the schema
    are ignored, and the columns of the schema that the input lacks are
    written empty.  A row with a column outside the schema is not
    written, the writer raises [ValueError]; a row of an input without
    the column [device] is not written either, [convert_int] raises
    [KeyError]. *)
Lemma process_devices_counterexample :
  process_devices [["route"; "vendor"; "device"; "speed"]; ["1a"; "8086"; "10d3"; "40"]]
    = ([header_cells device_names], Raise ValueError) /\
  process_devices [["route"; "vendor"]; ["1a"; "8086"]]
    = ([header_cells device_names], Raise KeyError).
Proof. vm_compute. done. Qed.

(** C6, amended.  The first record [process_devices] writes is the
    fixed schema of nine columns, whatever the columns of the input.
    The records behind it stand for the first rows of the input, one
    for one; a row that is written has no column outside the schema,
    it has the columns [route], [vendor] and [device], and a column of
    the schema that it lacks is written empty.  When the run ends
    without error every row was written. *)
Theorem process_devices_schema (records : list (list string)) :
  exists rows,
    (process_devices records).1 = header_cells device_names :: rows /\
    header_cells device_names =
      [VStr "domain"; VStr "route"; VStr "adapter"; VStr "index"; VStr "vendor";
       VStr "device"; VStr "vendor_name"; VStr "device_name"; VStr "type"] /\
    length rows <= length (DictReader records) /\
    (forall j cells, rows !! j = Some cells ->
       exists row, DictReader records !! j = Some row /\
                   written device_names row cells /\
                   Forall (fun name => is_Some (row !! Some name))
                          ["route"; "vendor"; "device"]) /\
    ((process_devices records).2 = Ok () ->
     length rows = length (DictReader records)).
Proof.
  unfold process_devices.
  destruct (devices_loop _ _) as [out r] eqn:Hloop.
  apply devices_loop_rows in Hloop as (rows & -> & Hlen & Hrows & Hall).
  exists rows. split; [done|]. split; [done|]. split; [done|]. split; [|done].
  intros j cells Hj. destruct (Hrows j cells Hj) as (row & Hrow & Hok).
  exists row. split; [done|]. split.
  - by apply device_row_written.
  - by eapply device_row_columns.
Qed.

(** ** process-trace.py *)

Example utc_iso_0 : utc_iso (VStr "0") = Ok "1970-01-01T00:00:00".
Proof. vm_compute. reflexivity. Qed.

Example utc_iso_billion : utc_iso (VStr "1000000000") = Ok "2001-09-09T01:46:40".
Proof. vm_compute. reflexivity. Qed.

Example utc_iso_leap : utc_iso (VStr "1709210096") = Ok "2024-02-29T12:34:56".
Proof. vm_compute. reflexivity. Qed.

(** a name of two characters or more is in no text of one character *)
Lemma contains_char c x y name :
  contains (IChar c) (String x (String y name)) = false.
Proof.
  unfold contains. apply bool_decide_eq_false. intros [n Hn]. revert Hn.
  simpl. destruct (ascii_dec x c); simpl; done.
Qed.

Lemma write_field_char c : write_field (IChar c) field_names = Raise KeyError.
Proof.
  unfold write_field, field_names. cbn [comprehension].
  rewrite !contains_char. done.
Qed.

Lemma iterate_name base :
  exists c rest, iterate (FName (base +:+ ".processed.fields.csv")) = IChar c :: rest.
Proof.
  destruct base as [|c base].
  - by do 2 eexists.
  - rewrite append_cons. by do 2 eexists.
Qed.

(** C10.  For an input with a header and no row, or with no record at
    all, [process_trace] does not end normally: the flush behind the
    loop goes over the characters of the name of the fields file, the
    first value of [fields], and [convert_int] raises [KeyError] on the
    first of them.  The two files hold their headers only. *)
Theorem process_trace_no_rows (local_iso : value -> result string)
    (base : string) (header : list string) :
  process_trace local_iso base [header]
    = ([header_cells entry_names], [header_cells field_names], Raise KeyError) /\
  process_trace local_iso base []
    = ([header_cells entry_names], [header_cells field_names], Raise KeyError).
Proof.
  unfold process_trace, write_row. cbn [DictReader filter list_filter map trace_loop
    fields fields_file entries_file].
  destruct (iterate_name base) as (c & rest & ->).
  cbn [write_items]. by rewrite write_field_char.
Qed.

(** C4, on the example of the specification: two runs, of the entries
    1 and 2.  One entry record is written, not two: the one of the
    second run, projected from its first row; the two field records of
    the first run have no entry record. *)
Theorem process_trace_example_runs :
  process_trace utc_iso "trace" example_trace
  = ([header_cells entry_names;
      [VStr "2"; VStr "70"; VStr "2001-09-09T01:47:40"; VStr "rx"; VStr "0";
       VStr "5"; VStr "1"; VStr "0"; VInt 27; VStr "3"; VStr "port"]],
     [header_cells field_names;
      [VStr "1"; VInt 0; VInt 0; VInt 161; VStr "first"];
      [VStr "1"; VInt 1; VInt 4; VInt 178; VStr "second"];
      [VStr "2"; VInt 0; VInt 0; VInt 195; VStr "third"]],
     Ok ()).
Proof. vm_compute. reflexivity. Qed.

Lemma trace_step_same_entry local_iso v st row st' r :
  row !! Some "entry" = Some v ->
  (truthy (line st) = true -> line st = v) ->
  trace_step local_iso st row = (st', r) ->
  entries_file st' = entries_file st /\ (truthy (line st') = true -> line st' = v).
Proof.
  intros Hrow Hline. unfold trace_step, dict_get. rewrite Hrow.
  destruct (truthy (line st)) eqn:Ht; simpl.
  - rewrite decide_False by (intros Hne; by apply Hne, Hline).
    destruct (append (fields st) row); intros [= <- <-]; simpl; split; try done;
      intros _; by apply Hline.
  - intros [= <- <-]. simpl. done.
Qed.

(** The first run has no entry record: as long as the rows hold one
    and the same entry, the entries file keeps its header alone. *)
Lemma process_trace_single_run local_iso base header rows v :
  Forall (fun row => row !! Some "entry" = Some v) (DictReader (header :: rows)) ->
  (process_trace local_iso base (header :: rows)).1.1 = [header_cells entry_names].
Proof.
  unfold process_trace. generalize (DictReader (header :: rows)). intros reader Hall.
  assert (forall st, (truthy (line st) = true -> line st = v) ->
    entries_file (trace_loop local_iso reader st).1 = entries_file st) as Hloop.
  { induction Hall as [|row reader Hrow Hall IH]; intros st Hst; simpl; [done|].
    destruct (trace_step local_iso st row) as [st' [[]|e]] eqn:Hstep;
      destruct (trace_step_same_entry _ _ _ _ _ _ Hrow Hst Hstep) as [He Hl].
    - by rewrite IH.
    - done. }
  match goal with |- context [trace_loop _ _ ?st] => specialize (Hloop st) end.
  simpl in Hloop.
  destruct (trace_loop local_iso reader _) as [st [[]|e]].
  - destruct (write_row _ _ _) as [fields_out r]. simpl in *. by apply Hloop.
  - simpl in *. by apply Hloop.
Qed.

Lemma trace_loop_changes local_iso reader : forall st st',
  trace_loop local_iso reader st = (st', Ok ()) ->
  truthy (line st) = true ->
  Forall (fun row => exists v, row !! Some "entry" = Some v /\ truthy v = true) reader ->
  length (entries_file st')
  = length (entries_file st) + changes (line st) (entry_values reader).
Proof.
  induction reader as [|row reader IH]; intros st st' Hrun Hline Hall.
  - simpl in *. injection Hrun as <-. lia.
  - apply Forall_cons in Hall as [(v & Hv & Htv) Hall].
    cbn [trace_loop] in Hrun.
    destruct (trace_step local_iso st row) as [st1 [[]|e]] eqn:Hstep; [|done].
    unfold entry_values. cbn [fmap list_fmap changes]. rewrite Hv.
    cbn [default from_option id]. fold (entry_values reader).
    unfold trace_step, dict_get in Hstep. rewrite Hline, Hv in Hstep. cbn [negb] in Hstep.
    destruct (decide (line st ≠ v)) as [Hne|Heq].
    + destruct (entry_record local_iso row) as [cells|]; [|done].
      destruct (write_row _ _ _) as [fields_out [[]|e]]; [|done].
      injection Hstep as <-.
      rewrite (IH _ _ Hrun) by done. cbn [entries_file line].
      rewrite length_app. simpl. lia.
    + destruct (append (fields st) row) as [fs|]; [|done].
      injection Hstep as <-.
      rewrite (IH _ _ Hrun) by done. cbn [entries_file line].
      assert (line st = v) as -> by (by destruct (decide (line st = v))).
      lia.
Qed.

(** The entries file holds its header and one record for every run but
    the first, when the run ends without error on rows that all have an
    entry id. *)
Lemma process_trace_entry_records local_iso base records entries_out fields_out :
  process_trace local_iso base records = (entries_out, fields_out, Ok ()) ->
  Forall (fun row => exists v, row !! Some "entry" = Some v /\ truthy v = true)
         (DictReader records) ->
  length entries_out = runs (entry_values (DictReader records)).
Proof.
  unfold process_trace. destruct (DictReader records) as [|row reader].
  { cbn [trace_loop fields fields_file]. unfold write_row.
    destruct (iterate_name base) as (c & rest & ->).
    cbn [write_items]. by rewrite write_field_char. }
  intros Hrun Hall. apply Forall_cons in Hall as [(v & Hv & Htv) Hall].
  cbn [trace_loop] in Hrun. unfold trace_step at 1 in Hrun.
  cbn [line truthy negb] in Hrun. unfold dict_get in Hrun. rewrite Hv in Hrun.
  match type of Hrun with
  | context [trace_loop _ _ ?st] =>
      destruct (trace_loop local_iso reader st) as [st' [[]|e]] eqn:Hloop; [|done]
  end.
  apply trace_loop_changes in Hloop; [|done|done].
  destruct (write_row _ _ _) as [out r]. injection Hrun as <- _ _.
  unfold entry_values. cbn [fmap list_fmap runs]. rewrite Hv.
  cbn [default from_option id]. fold (entry_values reader).
  rewrite Hloop. done.
Qed.

Example example_trace_runs :
  runs (entry_values (DictReader example_trace)) = 2 /\
  length (process_trace utc_iso "trace" example_trace).1.1 = 2.
Proof. vm_compute. done. Qed.

Lemma project_lookup names row name :
  project names row !! Some name =
    if decide (name ∈ names) then row !! Some name else None.
Proof.
  unfold project.
  assert (forall d : gmap (option string) value,
    foldl (fun d name =>
             match row !! Some name with
             | Some v => <[Some name := v]> d
             | None => d
             end) d names !! Some name =
    if decide (name ∈ names)
    then match row !! Some name with Some v => Some v | None => d !! Some name end
    else d !! Some name) as Hfold.
  { induction names as [|x names IH]; intros d; simpl.
    - done.
    - rewrite IH.
      assert (match row !! Some x with
              | Some v => <[Some x := v]> d
              | None => d
              end !! Some name =
              if decide (x = name)
              then match row !! Some name with Some v => Some v | None => d !! Some name end
              else d !! Some name) as ->.
      { destruct (decide (x = name)) as [->|Hne].
        - destruct (row !! Some name); [|done]. by rewrite lookup_insert_eq.
        - destruct (row !! Some x); [|done].
          rewrite lookup_insert_ne; [done | congruence]. }
      destruct (decide (name ∈ names)) as [Hin|Hin];
        destruct (decide (name ∈ x :: names)) as [Hin'|Hin'];
        rewrite elem_of_cons in Hin';
        destruct (decide (x = name)) as [Heq|Hne];
        destruct (row !! Some name); try done.
      all: exfalso; first [apply Hin'; by (right + (left; symmetry))
                          | destruct Hin'; done]. }
  rewrite Hfold. destruct (decide _); [|done].
  by destruct (row !! Some name).
Qed.

Lemma entry_record_datetime local_iso row cells :
  entry_record local_iso row = Ok cells ->
  exists d cell,
    row !! Some "datetime" = Some d /\
    cells !! 2 = Some cell /\ datetime_rendered local_iso d cell /\
    cells !! 1 = Some (default (VStr "") (row !! Some "timestamp")).
Proof.
  unfold entry_record, convert_timestamp, convert_int, dict_get.
  pose proof (project_lookup entry_names row "datetime") as Hd.
  pose proof (project_lookup entry_names row "timestamp") as Hts.
  rewrite decide_True in Hd by (unfold entry_names; set_solver).
  rewrite decide_True in Hts by (unfold entry_names; set_solver).
  generalize dependent (project entry_names row). intros e Hd Hts.
  rewrite Hd. destruct (row !! Some "datetime") as [d|] eqn:Hrow; [|done]. rsimpl.
  assert (forall e1 : gmap (option string) value, forall cell,
    e1 !! Some "datetime" = Some cell ->
    e1 !! Some "timestamp" = row !! Some "timestamp" ->
    (e2 ← (tmp ← match e1 !! Some "route" with
                  | Some v => Ok v
                  | None => Raise KeyError
                  end;
           if truthy tmp then n ← int16 tmp; Ok (<[Some "route" := VInt n]> e1)
           else Ok e1);
     writerow entry_names e2) = Ok cells ->
    cells !! 2 = Some cell /\
    cells !! 1 = Some (default (VStr "") (row !! Some "timestamp"))) as Hrest.
  { intros e1 cell Hc Ht.
    destruct (e1 !! Some "route") as [v|]; [|done]. rsimpl.
    destruct (truthy v).
    - destruct (int16 v) as [n|]; [|done]. rsimpl.
      intros [_ ->]%writerow_ok. simpl.
      rewrite !lookup_insert_ne by done. by rewrite Hc, Ht.
    - rsimpl. intros [_ ->]%writerow_ok. simpl. by rewrite Hc, Ht. }
  unfold datetime_rendered. destruct (truthy d) eqn:Htruthy.
  - destruct (local_iso d) as [text|] eqn:Hiso; [|done]. rsimpl.
    intros Hrun. apply (Hrest _ (VStr text)) in Hrun as [H2 H1].
    + exists d, (VStr text). split; [done|]. split; [done|]. split; [|done].
      rewrite Htruthy. by exists text.
    + by rewrite lookup_insert_eq.
    + by rewrite lookup_insert_ne.
  - rsimpl. intros Hrun. apply (Hrest _ d) in Hrun as [H2 H1]; [|done|done].
    exists d, d. split; [done|]. split; [done|]. split; [|done]. by rewrite Htruthy.
Qed.

Lemma trace_step_entries local_iso st row st' r :
  trace_step local_iso st row = (st', r) ->
  entries_file st' = entries_file st \/
  exists cells, entry_record local_iso row = Ok cells /\
                entries_file st' = entries_file st ++ [cells].
Proof.
  unfold trace_step.
  destruct (negb (truthy (line st))).
  { destruct (dict_get row (Some "entry")); intros [= <- <-]; by left. }
  destruct (dict_get row (Some "entry")) as [v|]; cycle 1.
  { intros [= <- <-]. by left. }
  destruct (decide (line st ≠ v)).
  - destruct (entry_record local_iso row) as [cells|] eqn:Hrec; cycle 1.
    { intros [= <- <-]. by left. }
    destruct (write_row _ _ _) as [fields_out [[]|e]]; intros [= <- <-];
      right; by exists cells.
  - destruct (append (fields st) row); intros [= <- <-]; by left.
Qed.

Lemma trace_loop_entries local_iso reader : forall st st' r,
  trace_loop local_iso reader st = (st', r) ->
  exists recs, entries_file st' = entries_file st ++ recs /\
    Forall (fun cells => exists row, row ∈ reader /\
                                     entry_record local_iso row = Ok cells) recs.
Proof.
  induction reader as [|row reader IH]; intros st st' r; simpl.
  - intros [= <- <-]. exists []. by rewrite app_nil_r.
  - destruct (trace_step local_iso st row) as [st1 [[]|e]] eqn:Hstep;
      apply trace_step_entries in Hstep.
    + intros (recs & -> & Hrecs)%IH.
      assert (Forall (fun cells => exists row0, row0 ∈ row :: reader /\
                entry_record local_iso row0 = Ok cells) recs) as Hrecs'.
      { eapply Forall_impl; [done|]. intros cells (row0 & Hin & Hok).
        exists row0. split; [by right | done]. }
      destruct Hstep as [->|(cells & Hcells & ->)].
      * by exists recs.
      * exists (cells :: recs). rewrite <- app_assoc. split; [done|].
        constructor; [|done]. exists row. split; [by left | done].
    + intros [= <- <-]. destruct Hstep as [->|(cells & Hcells & ->)].
      * exists []. by rewrite app_nil_r.
      * exists [cells]. split; [done|]. constructor; [|done].
        exists row. split; [by left | done].
Qed.

(** C5, as stated: [datetime] is the rendering of the field
    [timestamp].  On a host in UTC the entry record of an entry with
    the timestamp 86400 and the datetime 0 has the datetime of the
    second 0, not that of the second 86400. *)
Lemma process_trace_datetime_counterexample :
  exists entries fields cells,
    process_trace utc_iso "trace" example_datetime = (entries, fields, Ok ()) /\
    entries !! 1 = Some cells /\
    cells !! 1 = Some (VStr "86400") /\
    cells !! 2 = Some (VStr "1970-01-01T00:00:00") /\
    utc_iso (VStr "86400") = Ok "1970-01-02T00:00:00".
Proof. do 3 eexists. vm_compute. repeat split; done. Qed.

(** C5, amended.  Every entry record [process_trace] writes is
    projected from a row of the input that has a field [datetime]; its
    [datetime] value is the local ISO 8601 rendering of that field when
    the field is not empty, and the field as it is when it is empty;
    the field [timestamp] is written as it is. *)
Theorem process_trace_datetime (local_iso : value -> result string)
    (base : string) (records : list (list string)) (k : nat) (cells : list value) :
  (process_trace local_iso base records).1.1 !! S k = Some cells ->
  exists row d cell,
    row ∈ DictReader records /\
    row !! Some "datetime" = Some d /\
    cells !! 2 = Some cell /\ datetime_rendered local_iso d cell /\
    cells !! 1 = Some (default (VStr "") (row !! Some "timestamp")).
Proof.
  unfold process_trace.
  destruct (trace_loop local_iso (DictReader records) _) as [st r] eqn:Hrun.
  apply trace_loop_entries in Hrun as (recs & Hfile & Hrecs). simpl in Hfile.
  assert ((let (st0, r0) := (st, r) in
           match r0 with
           | Ok _ => let '(fields_out, r1) := write_row (fields st0) field_names (fields_file st0)
                     in (entries_file st0, fields_out, r1)
           | Raise e => (entries_file st0, fields_file st0, Raise e)
           end).1.1 = entries_file st) as Hfst.
  { destruct r as [[]|e]; [|done]. by destruct (write_row _ _ _). }
  destruct r as [[]|e].
  - destruct (write_row _ _ _) as [fields_out r1]. simpl.
    rewrite Hfile. simpl. intros Hk.
    rewrite Forall_forall in Hrecs.
    destruct (Hrecs cells) as (row & Hin & Hok); [by eapply list_elem_of_lookup_2|].
    destruct (entry_record_datetime _ _ _ Hok) as (d & cell & ?).
    exists row, d, cell. done.
  - simpl. rewrite Hfile. simpl. intros Hk.
    rewrite Forall_forall in Hrecs.
    destruct (Hrecs cells) as (row & Hin & Hok); [by eapply list_elem_of_lookup_2|].
    destruct (entry_record_datetime _ _ _ Hok) as (d & cell & ?).
    exists row, d, cell. done.
Qed.

Lemma process_trace_datetime_witness :
  (process_trace utc_iso "trace" example_trace).1.1 !! 1
    = Some [VStr "2"; VStr "70"; VStr "2001-09-09T01:47:40"; VStr "rx"; VStr "0";
            VStr "5"; VStr "1"; VStr "0"; VInt 27; VStr "3"; VStr "port"] /\
  exists row d cell,
    row ∈ DictReader example_trace /\
    row !! Some "datetime" = Some d /\
    [VStr "2"; VStr "70"; VStr "2001-09-09T01:47:40"; VStr "rx"; VStr "0";
     VStr "5"; VStr "1"; VStr "0"; VInt 27; VStr "3"; VStr "port"] !! 2 = Some cell /\
    datetime_rendered utc_iso d cell /\
    [VStr "2"; VStr "70"; VStr "2001-09-09T01:47:40"; VStr "rx"; VStr "0";
     VStr "5"; VStr "1"; VStr "0"; VInt 27; VStr "3"; VStr "port"] !! 1
      = Some (default (VStr "") (row !! Some "timestamp")).
Proof.
  split; [vm_compute; reflexivity|].
  apply (process_trace_datetime utc_iso "trace" example_trace 0).
  vm_compute. reflexivity.
Defined.


(** * Further properties *)

(** ** merge-logs.py: what the merge does to the records *)

Lemma finalized_source_records logs : finalized logs = numbered 0 (source_records logs).
Proof. done. Qed.

Lemma record_of_numbered count recs : record_of <$> numbered count recs = recs.
Proof.
  revert count. induction recs as [|[t s] recs IH]; intros count; [done|].
  rewrite numbered_cons. cbn [fmap list_fmap]. by rewrite IH.
Qed.

Lemma text_record_of (l : list log_entry) : text <$> l = snd <$> (record_of <$> l).
Proof. rewrite <- list_fmap_compose. by apply list_fmap_ext. Qed.

Lemma elem_of_numbered e count recs :
  e ∈ numbered count recs ->
  exists i r, recs !! i = Some r /\ e = (r.1, count + i, r.2).
Proof.
  unfold numbered. intros (i & r & -> & Hr)%elem_of_lookup_imap. by exists i, r.
Qed.

Lemma numbered_sorted recs : forall count,
  StronglySorted (fun a b => (a.1 <= b.1)%Z) recs ->
  StronglySorted (le entry_lt) (numbered count recs).
Proof.
  induction recs as [|r recs IH]; intros count Hs.
  - constructor.
  - apply StronglySorted_inv in Hs as [Hs Hr]. rewrite numbered_cons.
    constructor; [by apply IH|].
    apply Forall_forall. intros e (i & r' & Hi & ->)%elem_of_numbered.
    rewrite Forall_forall in Hr.
    assert (r.1 <= r'.1)%Z as Hle by (apply Hr; by eapply list_elem_of_lookup_2).
    unfold le, entry_lt, timestamp, sequence. cbn [fst snd].
    destruct (Z.eqb_spec r'.1 r.1) as [Heq|Hne]; cbn [negb].
    + destruct (Nat.eqb_spec (count + 1 + i) count); [lia|]. cbn [negb].
      apply Nat.ltb_ge. lia.
    + apply Z.ltb_ge. lia.
Qed.

Lemma le_entry_antisym a b : le entry_lt a b -> le entry_lt b a -> a = b.
Proof. unfold le. intros Hab Hba. by apply entry_lt_total. Qed.

Lemma sorted_popped logs popped :
  popped ≡ₚ finalized logs -> StronglySorted (le entry_lt) popped ->
  StronglySorted (fun a b => (a.1 <= b.1)%Z) (source_records logs) ->
  text <$> popped = snd <$> source_records logs.
Proof.
  intros Hperm Hpopped Hsorted. rewrite finalized_source_records in Hperm.
  assert (popped = numbered 0 (source_records logs)) as ->.
  { apply (StronglySorted_unique_strong (le entry_lt)); try done.
    - intros a b _ _. apply le_entry_antisym.
    - by apply numbered_sorted. }
  by rewrite text_record_of, record_of_numbered.
Qed.

(** X1.  Records that are finalized in the order of their timestamps are
    printed in that order, each once: the merge reorders nothing that
    is in order already.  For one source this says that a log whose
    timestamps never decrease is printed as it is. *)
Theorem merge_logs_sorted_input (logs : list string) :
  well_formed logs ->
  StronglySorted (fun a b => (a.1 <= b.1)%Z) (source_records logs) ->
  merge_logs logs = Ok (snd <$> source_records logs).
Proof.
  intros Hwf Hsorted.
  destruct (merge_logs_run logs Hwf) as (popped & -> & Hperm & Hpopped).
  f_equal. by apply sorted_popped.
Qed.

Lemma merge_logs_sorted_input_witness :
  merge_logs ["[1.0] a" +:+ String nl "more"; "[1.0] b" +:+ String nl "[2.5] c"]
  = Ok (snd <$> source_records
          ["[1.0] a" +:+ String nl "more"; "[1.0] b" +:+ String nl "[2.5] c"]).
Proof.
  apply merge_logs_sorted_input.
  - vm_compute. repeat constructor.
  - vm_compute. repeat constructor; discriminate.
Defined.

Lemma source_records_perm logs logs' :
  logs ≡ₚ logs' -> source_records logs ≡ₚ source_records logs'.
Proof.
  unfold source_records. intros Hp. induction Hp as [|x l l' _ IH|x y l|l l' l'' _ IH1 _ IH2].
  - done.
  - cbn [fmap list_fmap concat]. by rewrite IH.
  - cbn [fmap list_fmap concat]. rewrite !app_assoc. f_equiv. apply Permutation_app_comm.
  - by rewrite IH1.
Qed.

Lemma StronglySorted_strict {A} (f : A -> Z) (l : list A) :
  StronglySorted (fun a b => (f a <= f b)%Z) l -> NoDup (f <$> l) ->
  StronglySorted (fun a b => (f a < f b)%Z) l.
Proof.
  induction 1 as [|x l Hs IH Hx]; intros Hnd; [constructor|].
  cbn [fmap list_fmap] in Hnd. apply NoDup_cons in Hnd as [Hnotin Hnd].
  constructor; [by apply IH|].
  rewrite Forall_forall in Hx. apply Forall_forall. intros y Hy.
  assert (f x ≠ f y).
  { intros Heq. apply Hnotin. rewrite Heq. by apply list_elem_of_fmap_2. }
  specialize (Hx y Hy). lia.
Qed.

(** the records printed, with their timestamps, for a run that ends well *)
Lemma merge_logs_records logs :
  well_formed logs ->
  exists recs, merge_logs logs = Ok (snd <$> recs) /\
               recs ≡ₚ source_records logs /\
               StronglySorted (fun a b => (a.1 <= b.1)%Z) recs.
Proof.
  intros Hwf.
  destruct (merge_logs_run logs Hwf) as (popped & -> & Hperm & Hpopped).
  exists (record_of <$> popped). split; [by rewrite text_record_of|]. split.
  - rewrite Hperm, finalized_source_records. by rewrite record_of_numbered.
  - apply StronglySorted_fmap with (R1 := le entry_lt); [|done].
    intros a b. apply le_timestamp.
Qed.

(** X2.  When no two records have the same timestamp, the order in which
    the files are named does not matter: any rearrangement of the
    arguments gives the same output (or the same error). *)
Theorem merge_logs_argument_order (logs logs' : list string) :
  logs ≡ₚ logs' ->
  NoDup (fst <$> source_records logs) ->
  merge_logs logs = merge_logs logs'.
Proof.
  intros Hp Hnd.
  destruct (decide (well_formed logs)) as [Hwf|Hbad]; cycle 1.
  { rewrite !merge_logs_leading; [done| |done].
    unfold well_formed in *. by rewrite <- Hp. }
  assert (well_formed logs') as Hwf' by (unfold well_formed in *; by rewrite <- Hp).
  destruct (merge_logs_records logs Hwf) as (recs & -> & Hperm & Hs).
  destruct (merge_logs_records logs' Hwf') as (recs' & -> & Hperm' & Hs').
  do 2 f_equal.
  apply (StronglySorted_unique_strong (fun a b : Z * string => (a.1 < b.1)%Z)).
  - intros a b _ _ Hab Hba. lia.
  - apply StronglySorted_strict; [done|]. by rewrite Hperm.
  - apply StronglySorted_strict; [done|].
    by rewrite Hperm', <- (source_records_perm _ _ Hp).
  - by rewrite Hperm, Hperm', (source_records_perm _ _ Hp).
Qed.

Lemma merge_logs_argument_order_witness :
  merge_logs [example_A; example_B] = merge_logs [example_B; example_A].
Proof.
  apply merge_logs_argument_order.
  - apply Permutation_swap.
  - apply (bool_decide_eq_true_1 (NoDup (fst <$> source_records [example_A; example_B]))).
    vm_compute. reflexivity.
Defined.

(** ** merge-logs.py: lines and records *)

Lemma no_nl_append a b : no_nl (a +:+ b) = no_nl a && no_nl b.
Proof.
  induction a as [|c a IH]; [done|]. rewrite append_cons. simpl.
  rewrite IH. by rewrite andb_assoc.
Qed.

Lemma rstrip_nl_no_nl p : no_nl p = true -> rstrip_nl p = p.
Proof.
  induction p as [|c p IH]; [done|]. simpl.
  intros [Hc Hp]%andb_true_iff. rewrite (IH Hp).
  destruct p; [|done]. by destruct (is_nl c).
Qed.

Lemma rstrip_nl_line p : no_nl p = true -> rstrip_nl (p +:+ String nl EmptyString) = p.
Proof.
  induction p as [|c p IH]; [done|]. rewrite append_cons. simpl.
  intros [Hc Hp]%andb_true_iff. rewrite (IH Hp).
  destruct p; [|done]. by destruct (is_nl c).
Qed.

Lemma is_nl_nl c : is_nl c = true -> c = nl.
Proof. intros H. by_cases_on_char c. Qed.

(** every line of a source, its line break taken off, holds no line break *)
Lemma lines_from_no_nl s : forall cur,
  no_nl cur = true ->
  Forall (fun l => no_nl l = true) (rstrip_nl <$> lines_from cur s).
Proof.
  induction s as [|c s IH]; intros cur Hcur; simpl.
  - destruct cur; [constructor|]. repeat constructor.
    by rewrite rstrip_nl_no_nl.
  - destruct (is_nl c) eqn:Hc.
    + apply is_nl_nl in Hc as ->. cbn [fmap list_fmap]. constructor.
      * by rewrite rstrip_nl_line.
      * by apply IH.
    + apply IH. rewrite no_nl_append, Hcur. simpl. by rewrite Hc.
Qed.

Lemma source_lines_no_nl text : Forall (fun l => no_nl l = true) (source_lines text).
Proof. by apply lines_from_no_nl. Qed.

Lemma split_nl_no_nl l : no_nl l = true -> split_nl l = [l].
Proof.
  induction l as [|c l IH]; [done|]. simpl.
  intros [Hc Hl]%andb_true_iff. rewrite (IH Hl).
  by destruct (is_nl c).
Qed.

Lemma split_nl_append l r :
  no_nl l = true -> split_nl (l +:+ String nl r) = l :: split_nl r.
Proof.
  induction l as [|c l IH]; [done|]. rewrite append_cons. simpl.
  intros [Hc Hl]%andb_true_iff. rewrite (IH Hl).
  by destruct (is_nl c).
Qed.

Lemma split_continuation rest : forall l,
  no_nl l = true -> Forall (fun l => no_nl l = true) rest ->
  split_nl (l +:+ continuation rest) = l :: continuation_lines rest.
Proof.
  induction rest as [|c rest IH]; intros l Hl Hrest; simpl.
  - rewrite append_nil_r. by apply split_nl_no_nl.
  - apply Forall_cons in Hrest as [Hc Hrest].
    destruct (boundary c).
    + rewrite append_nil_r. by apply split_nl_no_nl.
    + change (String nl EmptyString +:+ c +:+ continuation rest)
        with (String nl (c +:+ continuation rest)).
      rewrite split_nl_append by done. f_equal. by apply IH.
Qed.

Lemma continuation_after lines :
  continuation_lines lines ++ after_continuation lines = lines.
Proof.
  induction lines as [|l lines IH]; [done|]. simpl.
  destruct (boundary l); [done|]. simpl. by rewrite IH.
Qed.

Lemma records_after lines : records (after_continuation lines) = records lines.
Proof.
  induction lines as [|l lines IH]; [done|]. simpl.
  unfold boundary. destruct (pattern_match l) eqn:Hm; [|done].
  simpl. by rewrite Hm.
Qed.

(** the records of a source, cut at their line breaks, give back its
    lines from the first boundary line on *)
Lemma records_lines lines :
  Forall (fun l => no_nl l = true) lines ->
  concat ((fun r => split_nl r.2) <$> records lines) = after_continuation lines.
Proof.
  induction lines as [|l lines IH]; intros Hn; [done|].
  apply Forall_cons in Hn as [Hl Hn]. simpl. unfold boundary.
  destruct (pattern_match l) eqn:Hm.
  - cbn [fmap list_fmap concat snd]. rewrite split_continuation by done.
    rewrite (IH Hn). simpl. f_equal. apply continuation_after.
  - by apply IH.
Qed.

Lemma after_continuation_starts_ok lines :
  starts_ok lines = true -> after_continuation lines = lines.
Proof. destruct lines as [|l lines]; [done|]. simpl. by intros ->. Qed.

Lemma concat_perm {A} (l l' : list (list A)) : l ≡ₚ l' -> concat l ≡ₚ concat l'.
Proof.
  induction 1 as [|x l l' _ IH|x y l|l l' l'' _ IH1 _ IH2]; simpl.
  - done.
  - by rewrite IH.
  - rewrite !app_assoc. f_equiv. apply Permutation_app_comm.
  - by rewrite IH1.
Qed.

Lemma concat_fmap_concat {A B} (f : A -> list B) (ls : list (list A)) :
  concat (f <$> concat ls) = concat ((fun l => concat (f <$> l)) <$> ls).
Proof.
  induction ls as [|l ls IH]; [done|]. simpl.
  by rewrite fmap_app, concat_app, IH.
Qed.

Lemma source_records_lines logs :
  well_formed logs ->
  concat ((fun r => split_nl r.2) <$> source_records logs)
  = concat (source_lines <$> logs).
Proof.
  intros Hwf. unfold source_records. rewrite concat_fmap_concat.
  rewrite <- list_fmap_compose. f_equal. apply Forall_fmap_ext.
  eapply Forall_impl; [apply Hwf|]. intros text Hstart. simpl.
  rewrite records_lines by apply source_lines_no_nl.
  by apply after_continuation_starts_ok.
Qed.

(** X3.  No line is lost and none is made up.  The records printed, cut
    at their line breaks, hold the lines of the sources, each as often
    as the sources hold it. *)
Theorem merge_logs_keeps_lines (logs : list string) (out : list string) :
  merge_logs logs = Ok out ->
  concat (split_nl <$> out) ≡ₚ concat (source_lines <$> logs).
Proof.
  intros Hrun.
  destruct (decide (well_formed logs)) as [Hwf|Hbad]; cycle 1.
  { by rewrite merge_logs_leading in Hrun. }
  destruct (merge_logs_records logs Hwf) as (recs & Hout & Hperm & _).
  rewrite Hout in Hrun. injection Hrun as <-.
  rewrite <- list_fmap_compose, <- source_records_lines by done.
  apply concat_perm. by rewrite Hperm.
Qed.

Lemma merge_logs_keeps_lines_witness :
  concat (split_nl <$> ["[1.0] b"; "[1.00] c"; "[ 1.0] d"; "[2.0] a"])
  ≡ₚ concat (source_lines <$> example_ties).
Proof.
  apply (merge_logs_keeps_lines example_ties).
  vm_compute. reflexivity.
Defined.

(** ** merge-logs.py: the output read again *)

Lemma split_nl_cons s : exists h t, split_nl s = h :: t.
Proof.
  induction s as [|c s (h & t & IH)]; simpl; [by eexists _, _|].
  destruct (is_nl c); [by eexists _, _|]. rewrite IH. by eexists _, _.
Qed.

Lemma lines_from_printed t rest : forall cur,
  no_nl cur = true ->
  rstrip_nl <$> lines_from cur (t +:+ String nl rest)
  = match split_nl t with
    | h :: tl => (cur +:+ h) :: tl
    | [] => [cur]
    end ++ (rstrip_nl <$> lines_from EmptyString rest).
Proof.
  induction t as [|c t IH]; intros cur Hcur.
  - change (EmptyString +:+ String nl rest) with (String nl rest).
    cbn [lines_from split_nl]. replace (is_nl nl) with true by done.
    cbn [fmap list_fmap]. by rewrite rstrip_nl_line, append_nil_r.
  - rewrite append_cons. cbn [lines_from split_nl].
    destruct (is_nl c) eqn:Hc.
    + apply is_nl_nl in Hc as ->. cbn [fmap list_fmap].
      rewrite rstrip_nl_line, append_nil_r by done.
      rewrite (IH EmptyString) by done. cbn [app]. f_equal.
      destruct (split_nl_cons t) as (h & tl & ->). done.
    + rewrite IH by (rewrite no_nl_append, Hcur; simpl; by rewrite Hc).
      destruct (split_nl_cons t) as (h & tl & ->).
      by rewrite append_assoc.
Qed.

Lemma source_lines_stdout out :
  source_lines (stdout out) = concat (split_nl <$> out).
Proof.
  induction out as [|t out IH]; [done|].
  cbn [stdout fmap list_fmap concat]. unfold source_lines, open_ in *.
  change (t +:+ String nl EmptyString +:+ stdout out)
    with (t +:+ String nl (stdout out)).
  rewrite lines_from_printed by done. rewrite IH.
  destruct (split_nl_cons t) as (h & tl & ->). done.
Qed.

Lemma continuation_continuation_lines lines :
  continuation (continuation_lines lines) = continuation lines.
Proof.
  induction lines as [|l lines IH]; [done|]. simpl.
  destruct (boundary l) eqn:Hb; [done|]. simpl. by rewrite Hb, IH.
Qed.

Lemma records_continuation_lines lines : records (continuation_lines lines) = [].
Proof.
  induction lines as [|l lines IH]; [done|]. simpl.
  destruct (boundary l) eqn:Hb; [done|]. simpl.
  unfold boundary in Hb. by destruct (pattern_match l).
Qed.

(** a record of a source, cut at its line breaks, is read as that one
    record again *)
Lemma records_reread lines r :
  Forall (fun l => no_nl l = true) lines -> r ∈ records lines ->
  records (split_nl r.2) = [r] /\ starts_ok (split_nl r.2) = true.
Proof.
  induction lines as [|l lines IH]; intros Hn Hr; [by apply elem_of_nil in Hr|].
  apply Forall_cons in Hn as [Hl Hn]. simpl in Hr.
  destruct (pattern_match l) as [g|] eqn:Hm; [|by apply IH].
  apply elem_of_cons in Hr as [->|Hr]; [|by apply IH].
  cbn [snd]. rewrite split_continuation by done. split.
  - cbn [records]. rewrite Hm, continuation_continuation_lines.
    by rewrite records_continuation_lines.
  - simpl. unfold boundary. by rewrite Hm.
Qed.

Lemma continuation_app la lb :
  starts_ok lb = true -> continuation (la ++ lb) = continuation la.
Proof.
  intros Hb. induction la as [|l la IH].
  - destruct lb as [|l lb]; [done|]. simpl in *. by rewrite Hb.
  - simpl. destruct (boundary l); [done|]. by rewrite IH.
Qed.

Lemma records_app la lb :
  starts_ok lb = true -> records (la ++ lb) = records la ++ records lb.
Proof.
  intros Hb. induction la as [|l la IH]; [done|]. simpl.
  rewrite IH, continuation_app by done. by destruct (pattern_match l).
Qed.

Lemma records_concat (recs : list (Z * string)) :
  Forall (fun r => records (split_nl r.2) = [r] /\ starts_ok (split_nl r.2) = true) recs ->
  records (concat ((fun r => split_nl r.2) <$> recs)) = recs /\
  starts_ok (concat ((fun r => split_nl r.2) <$> recs)) = true.
Proof.
  induction 1 as [|r recs [Hr Hs] _ [IH1 IH2]]; [done|].
  cbn [fmap list_fmap concat]. split.
  - rewrite records_app by done. by rewrite Hr, IH1.
  - destruct (split_nl_cons r.2) as (h & t & Hsplit). by rewrite Hsplit in *.
Qed.

Lemma source_records_reread logs r :
  r ∈ source_records logs ->
  records (split_nl r.2) = [r] /\ starts_ok (split_nl r.2) = true.
Proof.
  unfold source_records. induction logs as [|text logs IH]; simpl.
  - by intros ?%elem_of_nil.
  - intros [Hr|Hr]%elem_of_app; [|by apply IH].
    eapply records_reread; [apply source_lines_no_nl | done].
Qed.

(** X4.  The output of [merge_logs], read again, is printed again as it
    is.  When a run prints [out], the run on the one file that holds
    what was printed ends well and prints [out]. *)
Theorem merge_logs_idempotent (logs : list string) (out : list string) :
  merge_logs logs = Ok out -> merge_logs [stdout out] = Ok out.
Proof.
  intros Hrun.
  destruct (decide (well_formed logs)) as [Hwf|Hbad]; cycle 1.
  { by rewrite merge_logs_leading in Hrun. }
  destruct (merge_logs_records logs Hwf) as (recs & Hout & Hperm & Hsorted).
  rewrite Hout in Hrun. injection Hrun as <-.
  assert (Forall (fun r => records (split_nl r.2) = [r] /\
                           starts_ok (split_nl r.2) = true) recs) as Hgood.
  { apply Forall_forall. intros r Hr. apply (source_records_reread logs).
    by rewrite <- Hperm. }
  destruct (records_concat recs Hgood) as [Hrecs Hstart].
  assert (source_lines (stdout (snd <$> recs))
          = concat ((fun r => split_nl r.2) <$> recs)) as Hlines.
  { by rewrite source_lines_stdout, <- list_fmap_compose. }
  assert (source_records [stdout (snd <$> recs)] = recs) as Hsource.
  { unfold source_records. cbn [fmap list_fmap concat].
    by rewrite app_nil_r, Hlines. }
  assert (well_formed [stdout (snd <$> recs)]) as Hwf'.
  { constructor; [|constructor]. by rewrite Hlines. }
  destruct (merge_logs_run _ Hwf') as (popped & -> & Hperm' & Hpopped).
  f_equal. rewrite (sorted_popped _ _ Hperm' Hpopped); rewrite Hsource; done.
Qed.

Lemma merge_logs_idempotent_witness :
  merge_logs [stdout ["[1.0] hello" +:+ String nl "cont"; "[2.0] foo"; "[3.0] world"]]
  = Ok ["[1.0] hello" +:+ String nl "cont"; "[2.0] foo"; "[3.0] world"].
Proof.
  apply (merge_logs_idempotent [example_A; example_B]).
  vm_compute. reflexivity.
Defined.

(** ** merge-logs.py: files put together *)

Lemma merge_logs_ext logs logs' :
  (well_formed logs <-> well_formed logs') ->
  source_records logs = source_records logs' ->
  merge_logs logs = merge_logs logs'.
Proof.
  intros Hiff Heq.
  destruct (decide (well_formed logs)) as [Hwf|Hbad]; cycle 1.
  { rewrite !merge_logs_leading; [done | by rewrite <- Hiff | done]. }
  assert (well_formed logs') as Hwf' by by apply Hiff.
  unfold merge_logs.
  rewrite !read_files_records; try apply open_nonempty; try by apply Forall_fmap.
  assert (forall l, concat ((fun file => records (rstrip_nl <$> file)) <$> map open_ l)
                    = source_records l) as Hsr.
  { intros l. unfold source_records, source_lines.
    by rewrite <- list_fmap_compose. }
  by rewrite !Hsr, Heq.
Qed.

Lemma source_lines_app t rest :
  source_lines ((t +:+ String nl EmptyString) +:+ rest)
  = source_lines (t +:+ String nl EmptyString) ++ source_lines rest.
Proof.
  unfold source_lines, open_. rewrite append_assoc.
  change (String nl EmptyString +:+ rest) with (String nl rest).
  rewrite !lines_from_printed by done. cbn [lines_from fmap list_fmap].
  by rewrite app_nil_r.
Qed.

Lemma source_lines_line t : exists l ls, source_lines (t +:+ String nl EmptyString) = l :: ls.
Proof.
  unfold source_lines, open_. rewrite lines_from_printed by done.
  destruct (split_nl_cons t) as (h & tl & ->). by eexists _, _.
Qed.

(** X5.  Two files named one after the other are merged as the one file
    that holds the first and then the second, when the first ends with
    a line break and the second is empty or starts with a boundary
    line. *)
Theorem merge_logs_concatenated (before after : list string) (t second : string) :
  starts_ok (source_lines second) = true ->
  merge_logs (before ++ (t +:+ String nl EmptyString) :: second :: after)
  = merge_logs (before ++ ((t +:+ String nl EmptyString) +:+ second) :: after).
Proof.
  intros Hsecond. destruct (source_lines_line t) as (l & ls & Hfirst).
  apply merge_logs_ext.
  - unfold well_formed. rewrite !Forall_app, !Forall_cons.
    rewrite source_lines_app, Hfirst. simpl. tauto.
  - unfold source_records. rewrite !fmap_app, !concat_app. f_equal.
    cbn [fmap list_fmap concat]. rewrite app_assoc. f_equal.
    by rewrite source_lines_app, records_app.
Qed.

Lemma merge_logs_concatenated_witness :
  merge_logs ([] ++ ("[2.0] a" +:+ String nl EmptyString) :: "[1.0] b" :: [])
  = merge_logs ([] ++ (("[2.0] a" +:+ String nl EmptyString) +:+ "[1.0] b") :: []).
Proof.
  apply merge_logs_concatenated. vm_compute. reflexivity.
Defined.

(** ** The names of the output files *)

Example devices_name_plain : devices_name "logs/run1/devices.csv" = "devices.processed.csv".
Proof. reflexivity. Qed.

Example devices_name_dots : devices_name "../.hidden.tar.gz" = ".hidden.tar.processed.csv".
Proof. reflexivity. Qed.

Example devices_name_leading_dots : devices_name "/tmp/...csv" = "...csv.processed.csv".
Proof. reflexivity. Qed.

Example devices_name_directory : devices_name "a.b/" = ".processed.csv".
Proof. reflexivity. Qed.

Lemma rfind_range c s : (-1 <= rfind c s)%Z.
Proof.
  induction s as [|x s IH]; simpl; [lia|].
  destruct (0 <=? rfind c s)%Z eqn:H; [lia|]. destruct (Ascii.eqb x c); lia.
Qed.

Lemma rfind_found c s :
  (0 <= rfind c s)%Z ->
  exists a b, s = a +:+ String c b /\ Z.of_nat (String.length a) = rfind c s /\
              rfind c b = (-1)%Z.
Proof.
  induction s as [|x s IH]; simpl; [lia|].
  destruct (0 <=? rfind c s)%Z eqn:H.
  - intros _. destruct IH as (a & b & -> & Hlen & Hb); [lia|].
    exists (String x a), b. rewrite append_cons. split; [done|]. split; [|done].
    simpl. lia.
  - destruct (Ascii.eqb_spec x c) as [->|]; [|lia]. intros _.
    exists EmptyString, s. split; [done|]. split; [done|].
    pose proof (rfind_range c s). lia.
Qed.

Lemma rfind_app c a b :
  rfind c (a +:+ b)
  = if (0 <=? rfind c b)%Z then (Z.of_nat (String.length a) + rfind c b)%Z
    else rfind c a.
Proof.
  induction a as [|x a IH].
  - change (EmptyString +:+ b) with b. simpl.
    destruct (0 <=? rfind c b)%Z eqn:H; [done|].
    pose proof (rfind_range c b). lia.
  - rewrite append_cons. cbn [rfind String.length]. rewrite IH.
    destruct (0 <=? rfind c b)%Z eqn:H.
    + replace (0 <=? Z.of_nat (String.length a) + rfind c b)%Z with true by lia. lia.
    + done.
Qed.

Lemma take_chars_app a b : take_chars (String.length a) (a +:+ b) = a.
Proof.
  induction a as [|x a IH]; [by destruct b|]. rewrite append_cons. simpl. by rewrite IH.
Qed.

Lemma drop_chars_app a b : drop_chars (String.length a) (a +:+ b) = b.
Proof. induction a as [|x a IH]; [by destruct b|]. by rewrite append_cons. Qed.

Lemma take_drop_chars n s : take_chars n s +:+ drop_chars n s = s.
Proof.
  revert s. induction n as [|n IH]; intros [|c s]; try done.
  simpl. rewrite append_cons. by rewrite IH.
Qed.

Lemma basename_no_slash p : rfind "/" (basename p) = (-1)%Z.
Proof.
  unfold basename. destruct (decide (0 <= rfind "/" p)%Z) as [Hfound|Hnone].
  - destruct (rfind_found _ _ Hfound) as (a & b & -> & Hlen & Hb).
    rewrite <- Hlen.
    replace (Z.to_nat (Z.of_nat (String.length a) + 1))
      with (String.length (a +:+ "/")).
    + change (String "/" b) with ("/" +:+ b). rewrite <- append_assoc.
      by rewrite drop_chars_app.
    + clear. induction a as [|x a IH]; [done|]. rewrite append_cons. simpl. lia.
  - pose proof (rfind_range "/" p).
    assert (rfind "/" p = (-1)%Z) as Hp by lia. by rewrite Hp.
Qed.

Lemma basename_last dir file :
  rfind "/" file = (-1)%Z -> basename (dir +:+ String "/" file) = file.
Proof.
  intros Hfile. unfold basename. rewrite rfind_app. cbn [rfind].
  rewrite Hfile. cbn.
  replace (Z.to_nat (Z.of_nat (String.length dir) + 0 + 1))
    with (String.length (dir +:+ "/")).
  - change (String "/" file) with ("/" +:+ file). rewrite <- append_assoc.
    by rewrite drop_chars_app.
  - clear. induction dir as [|x a IH]; [done|]. rewrite append_cons. simpl. lia.
Qed.

Lemma splitext_loop_some fuel : forall p i d r,
  splitext_loop fuel p i d = Some r -> r = (take_chars d p, drop_chars d p).
Proof.
  induction fuel as [|fuel IH]; intros p i d r; simpl; [done|].
  destruct (decide (i < d)); [|done].
  destruct (decide _); [by intros [= <-]|]. apply IH.
Qed.

(** the two parts [splitext] gives make up the path, and the second is
    empty or a dot with no dot behind it *)
Lemma splitext_shape p :
  (splitext p).1 +:+ (splitext p).2 = p /\
  ((splitext p).2 = EmptyString \/
   exists b, (splitext p).2 = String "." b /\ rfind "." b = (-1)%Z).
Proof.
  unfold splitext.
  destruct (rfind "/" p <? rfind "." p)%Z eqn:Hlt; cycle 1.
  { simpl. split; [apply append_nil_r | by left]. }
  destruct (splitext_loop _ _ _ _) as [r|] eqn:Hloop; cycle 1.
  { simpl. split; [apply append_nil_r | by left]. }
  apply splitext_loop_some in Hloop as ->. cbn [fst snd].
  split; [apply take_drop_chars|]. right.
  pose proof (rfind_range "/" p).
  destruct (rfind_found "." p) as (a & b & Hp & Hlen & Hb); [lia|].
  exists b. split; [|done].
  rewrite <- Hlen, Nat2Z.id. rewrite Hp. by rewrite drop_chars_app.
Qed.

Lemma base_of_no_slash path : rfind "/" (base_of path) = (-1)%Z.
Proof.
  unfold base_of. pose proof (basename_no_slash path) as Hb.
  destruct (splitext_shape (basename path)) as [Hsplit _].
  rewrite <- Hsplit, rfind_app in Hb.
  pose proof (rfind_range "/" (splitext (basename path)).1).
  pose proof (rfind_range "/" (splitext (basename path)).2).
  destruct (0 <=? rfind "/" (splitext (basename path)).2)%Z eqn:H1; lia.
Qed.

(** X6.  The three output files are named without a directory, so they
    are written where the script runs, wherever the input is. *)
Theorem output_names_no_directory (path : string) :
  rfind "/" (devices_name path) = (-1)%Z /\
  rfind "/" (entries_name path) = (-1)%Z /\
  rfind "/" (fields_name path) = (-1)%Z.
Proof.
  unfold devices_name, entries_name, fields_name.
  rewrite !rfind_app, base_of_no_slash. done.
Qed.

(** X7.  The names of the output files depend on the last part of the
    path only: inputs of one name in different directories are written
    to the same files. *)
Theorem output_names_last_component (dir file : string) :
  rfind "/" file = (-1)%Z ->
  devices_name (dir +:+ String "/" file) = devices_name file /\
  entries_name (dir +:+ String "/" file) = entries_name file /\
  fields_name (dir +:+ String "/" file) = fields_name file.
Proof.
  intros Hfile. unfold devices_name, entries_name, fields_name, base_of.
  rewrite basename_last by done.
  assert (basename file = file) as ->; [|done].
  unfold basename. by rewrite Hfile.
Qed.

Lemma output_names_last_component_witness :
  devices_name ("/var/log" +:+ String "/" "devices.csv") = devices_name "devices.csv" /\
  entries_name ("/var/log" +:+ String "/" "devices.csv") = entries_name "devices.csv" /\
  fields_name ("/var/log" +:+ String "/" "devices.csv") = fields_name "devices.csv".
Proof. apply output_names_last_component. reflexivity. Defined.

(** X8.  No output file has the name of the input file, so a script run
    in the directory of its input does not write over it; and the two
    files of [process_trace] have different names. *)
Theorem output_names_differ (path : string) :
  devices_name path ≠ basename path /\
  entries_name path ≠ basename path /\
  fields_name path ≠ basename path /\
  entries_name path ≠ fields_name path.
Proof.
  unfold devices_name, entries_name, fields_name, base_of.
  destruct (splitext_shape (basename path)) as [Hsplit Hext].
  assert (forall suffix : string,
    rfind "." (drop_chars 1 suffix) ≠ (-1)%Z -> suffix ≠ EmptyString ->
    (splitext (basename path)).1 +:+ suffix ≠ basename path) as Hne.
  { intros suffix Hdots Hnonempty Heq. rewrite <- Hsplit in Heq at 2.
    apply (inj _) in Heq. destruct Hext as [He|(b & He & Hb)].
    - by rewrite He in Heq.
    - rewrite He in Heq. subst suffix. by simpl in Hdots. }
  repeat split; try (apply Hne; done).
  intros Heq. by apply (inj _) in Heq.
Qed.

(** ** util.py: what the two helpers change *)

Lemma convert_int_result fields name fields' :
  convert_int fields name = Ok fields' ->
  exists v, fields !! Some name = Some v /\
    ((truthy v = false /\ fields' = fields) \/
     (truthy v = true /\ exists n, int16 v = Ok n /\
                                   fields' = <[Some name := VInt n]> fields)).
Proof.
  unfold convert_int, dict_get.
  destruct (fields !! Some name) as [v|]; [|done]. rsimpl.
  intros Hrun. exists v. split; [done|].
  destruct (truthy v); [right | left; split; congruence].
  split; [done|]. destruct (int16 v) as [n|]; [|done].
  exists n. split; [done|]. revert Hrun. rsimpl. congruence.
Qed.

(** X9.  A call of [convert_int] that returns changes nothing but the
    value of the field it is called for: the row keeps its keys, and
    every other field keeps its value. *)
Theorem convert_int_frame (fields fields' : gmap (option string) value) (name : string) :
  convert_int fields name = Ok fields' ->
  dom fields' = dom fields /\
  forall k, k ≠ Some name -> fields' !! k = fields !! k.
Proof.
  intros Hrun. split; [by destruct (convert_int_keeps _ _ _ Hrun)|].
  intros k Hk.
  destruct (convert_int_result _ _ _ Hrun) as (v & _ & [[_ ->]|(_ & n & _ & ->)]);
    [done|]. by rewrite lookup_insert_ne.
Qed.

Lemma convert_int_frame_witness :
  dom (<[Some "route" := VInt 26]> ({[ Some "route" := VStr "1a"; Some "name" := VStr "x" ]}
        : gmap (option string) value))
  = dom ({[ Some "route" := VStr "1a"; Some "name" := VStr "x" ]}
        : gmap (option string) value) /\
  forall k, k ≠ Some "route" ->
    (<[Some "route" := VInt 26]> ({[ Some "route" := VStr "1a"; Some "name" := VStr "x" ]}
        : gmap (option string) value)) !! k
    = ({[ Some "route" := VStr "1a"; Some "name" := VStr "x" ]}
        : gmap (option string) value) !! k.
Proof.
  apply (convert_int_frame _ _ "route"). vm_compute. reflexivity.
Defined.

Lemma hex_value_bounds s : forall acc n,
  hex_value acc s = Some n ->
  (acc * 16 ^ Z.of_nat (String.length s) <= n
   < (acc + 1) * 16 ^ Z.of_nat (String.length s))%Z.
Proof.
  induction s as [|c s IH]; intros acc n; simpl.
  - intros [= <-]. lia.
  - destruct (hex_digit c) as [d|] eqn:Hd; [|done].
    intros Hv%IH.
    assert (0 <= d < 16)%Z as Hrange.
    { clear -Hd. unfold hex_digit in Hd.
      repeat match type of Hd with
             | (if ?b then _ else _) = _ => destruct b eqn:?
             end; try done; injection Hd as <-; lia. }
    cbn [String.length]. rewrite Nat2Z.inj_succ, Z.pow_succ_r by lia.
    pose proof (Z.pow_pos_nonneg 16 (Z.of_nat (String.length s))). nia.
Qed.

(** X10.  A field that holds hexadecimal digits and nothing else is always
    converted: the call returns, and the value stored is the number the
    digits spell, which is below 16 to the number of digits. *)
Theorem convert_int_hex_digits (fields : gmap (option string) value) (name : string)
    (c : ascii) (s : string) (n : Z) :
  fields !! Some name = Some (VStr (String c s)) ->
  hex_value 0 (String c s) = Some n ->
  convert_int fields name = Ok (<[Some name := VInt n]> fields) /\
  (0 <= n < 16 ^ Z.of_nat (String.length (String c s)))%Z.
Proof.
  intros Hfield Hvalue. split.
  - unfold convert_int, dict_get. rewrite Hfield. rsimpl. cbn [truthy String.eqb negb].
    unfold int16. by rewrite (int16_text_digits _ _ _ Hvalue).
  - apply hex_value_bounds in Hvalue. lia.
Qed.

Lemma convert_int_hex_digits_witness :
  convert_int {[ Some "vendor" := VStr "8086" ]} "vendor"
    = Ok (<[Some "vendor" := VInt 32902]> {[ Some "vendor" := VStr "8086" ]}) /\
  (0 <= 32902 < 16 ^ Z.of_nat (String.length "8086"))%Z.
Proof.
  apply (convert_int_hex_digits _ "vendor" "8" "086"); reflexivity.
Defined.

(** X11.  [convert_int] is not made to be called twice.  On a field it has
    converted to a number that is not 0 a second call raises
    [TypeError]; on the number 0 the second call changes nothing. *)
Theorem convert_int_twice (fields : gmap (option string) value) (name : string)
    (s : string) (n : Z) :
  fields !! Some name = Some (VStr s) -> s ≠ EmptyString ->
  int16_text s = Some n ->
  (f ← convert_int fields name; convert_int f name)
  = if (n =? 0)%Z then Ok (<[Some name := VInt 0]> fields) else Raise TypeError.
Proof.
  intros Hfield Hs Hn.
  unfold convert_int at 2. unfold dict_get. rewrite Hfield. rsimpl. cbn [truthy].
  destruct (String.eqb_spec s ""); [done|]. cbn [negb int16]. rewrite Hn. rsimpl.
  unfold convert_int, dict_get. rewrite lookup_insert_eq. rsimpl. cbn [truthy].
  destruct (Z.eqb_spec n 0) as [->|]; done.
Qed.

Lemma convert_int_twice_witness :
  (f ← convert_int {[ Some "route" := VStr "1a" ]} "route"; convert_int f "route")
  = if (26 =? 0)%Z then Ok (<[Some "route" := VInt 0]> {[ Some "route" := VStr "1a" ]})
    else Raise TypeError.
Proof.
  apply (convert_int_twice _ "route" "1a" 26); [reflexivity | discriminate | reflexivity].
Defined.

(** X12.  A call of [convert_timestamp] that returns changes nothing but
    the value of the field it is called for, whatever the rendering of
    the host is; an empty value or [None] is left as it is. *)
Theorem convert_timestamp_frame (local_iso : value -> result string)
    (fields fields' : gmap (option string) value) (name : string) :
  convert_timestamp local_iso fields name = Ok fields' ->
  dom fields' = dom fields /\
  (forall k, k ≠ Some name -> fields' !! k = fields !! k) /\
  (forall v, fields !! Some name = Some v -> truthy v = false -> fields' = fields).
Proof.
  unfold convert_timestamp, dict_get.
  destruct (fields !! Some name) as [v|] eqn:Hv; [|done]. rsimpl.
  destruct (truthy v) eqn:Ht.
  - destruct (local_iso v) as [text|]; [|done]. rsimpl. intros [= <-].
    split; [|split].
    + rewrite dom_insert_L. apply subseteq_union_1_L, singleton_subseteq_l.
      by apply elem_of_dom.
    + intros k Hk. by rewrite lookup_insert_ne.
    + intros v' [= <-] Hf. congruence.
  - intros [= <-]. done.
Qed.

Lemma convert_timestamp_frame_witness :
  dom (<[Some "datetime" := VStr "1970-01-01T00:00:00"]>
        ({[ Some "datetime" := VStr "0"; Some "entry" := VStr "1" ]}
         : gmap (option string) value))
  = dom ({[ Some "datetime" := VStr "0"; Some "entry" := VStr "1" ]}
         : gmap (option string) value) /\
  (forall k, k ≠ Some "datetime" ->
     (<[Some "datetime" := VStr "1970-01-01T00:00:00"]>
        ({[ Some "datetime" := VStr "0"; Some "entry" := VStr "1" ]}
         : gmap (option string) value)) !! k
     = ({[ Some "datetime" := VStr "0"; Some "entry" := VStr "1" ]}
         : gmap (option string) value) !! k) /\
  (forall v, ({[ Some "datetime" := VStr "0"; Some "entry" := VStr "1" ]}
         : gmap (option string) value) !! Some "datetime" = Some v ->
     truthy v = false ->
     <[Some "datetime" := VStr "1970-01-01T00:00:00"]>
        ({[ Some "datetime" := VStr "0"; Some "entry" := VStr "1" ]}
         : gmap (option string) value)
     = {[ Some "datetime" := VStr "0"; Some "entry" := VStr "1" ]}).
Proof.
  apply (convert_timestamp_frame utc_iso _ _ "datetime"). vm_compute. reflexivity.
Defined.

(** ** process-devices.py: the rows written *)

Lemma convert_int_lookup fields name fields' :
  convert_int fields name = Ok fields' ->
  (forall k, k ≠ Some name -> fields' !! k = fields !! k) /\
  exists v cell, fields !! Some name = Some v /\
                 fields' !! Some name = Some cell /\ converted v cell.
Proof.
  intros Hrun. split.
  { intros k Hk.
    destruct (convert_int_result _ _ _ Hrun) as (v & _ & [[_ ->]|(_ & n & _ & ->)]);
      [done|]. by rewrite lookup_insert_ne. }
  destruct (convert_int_result _ _ _ Hrun) as (v & Hv & [[Ht ->]|(Ht & n & Hn & ->)]).
  - exists v, v. unfold converted. by rewrite Ht.
  - exists v, (VInt n). rewrite lookup_insert_eq. unfold converted. rewrite Ht.
    repeat split; try done. by exists n.
Qed.

Lemma writerow_lookup names row cells i name :
  writerow names row = Ok cells -> names !! i = Some name ->
  cells !! i = Some (default (VStr "") (row !! Some name)).
Proof.
  intros [_ ->]%writerow_ok Hi. by rewrite list_lookup_fmap, Hi.
Qed.

Lemma device_row_cells row cells :
  device_row row = Ok cells ->
  forall i name, device_names !! i = Some name ->
    (name ∈ ["route"; "vendor"; "device"] ->
     exists v cell, row !! Some name = Some v /\ cells !! i = Some cell /\
                    converted v cell) /\
    (name ∉ ["route"; "vendor"; "device"] ->
     cells !! i = Some (default (VStr "") (row !! Some name))).
Proof.
  unfold device_row.
  destruct (convert_int row "route") as [r1|] eqn:H1; [|done]. rsimpl.
  destruct (convert_int r1 "vendor") as [r2|] eqn:H2; [|done]. rsimpl.
  destruct (convert_int r2 "device") as [r3|] eqn:H3; [|done]. rsimpl.
  intros Hw i name Hi. rewrite (writerow_lookup _ _ _ _ _ Hw Hi).
  apply convert_int_lookup in H1 as (F1 & v1 & c1 & Hv1 & Hc1 & Hconv1).
  apply convert_int_lookup in H2 as (F2 & v2 & c2 & Hv2 & Hc2 & Hconv2).
  apply convert_int_lookup in H3 as (F3 & v3 & c3 & Hv3 & Hc3 & Hconv3).
  split.
  - rewrite !elem_of_cons, elem_of_nil. intros [->|[->|[->|[]]]].
    + exists v1, c1. split; [done|]. split; [|done].
      by rewrite F3, F2, Hc1.
    + exists v2, c2. rewrite F1 in Hv2 by done. split; [done|]. split; [|done].
      by rewrite F3, Hc2.
    + exists v3, c3. rewrite F2, F1 in Hv3 by done. split; [done|]. split; [|done].
      by rewrite Hc3.
  - rewrite !elem_of_cons, elem_of_nil. intros Hnot.
    rewrite F3, F2, F1; [done|..]; intros [= ->]; apply Hnot; auto.
Qed.

(** X13.  Every data row [process_devices] writes stands for the input row
    of its place, column for column of the schema: under [route],
    [vendor] and [device] the number the text spells in base 16, or the
    value as it is when it is empty; under every other column the value
    of the row, or the empty text when the row has none. *)
Theorem process_devices_cells (records : list (list string)) (j : nat)
    (cells : list value) :
  (process_devices records).1 !! S j = Some cells ->
  exists row, DictReader records !! j = Some row /\
    forall i name, device_names !! i = Some name ->
      (name ∈ ["route"; "vendor"; "device"] ->
       exists v cell, row !! Some name = Some v /\ cells !! i = Some cell /\
                      converted v cell) /\
      (name ∉ ["route"; "vendor"; "device"] ->
       cells !! i = Some (default (VStr "") (row !! Some name))).
Proof.
  unfold process_devices.
  destruct (devices_loop _ _) as [out r] eqn:Hloop.
  apply devices_loop_rows in Hloop as (rows & -> & _ & Hrows & _).
  cbn [fst]. simpl. intros Hj.
  destruct (Hrows j cells Hj) as (row & Hrow & Hok).
  exists row. split; [done|]. by apply device_row_cells.
Qed.

Lemma process_devices_cells_witness :
  exists row, DictReader [["route"; "vendor"; "device"; "type"]; ["1a"; ""; "10d3"]] !! 0
              = Some row /\
    forall i name, device_names !! i = Some name ->
      (name ∈ ["route"; "vendor"; "device"] ->
       exists v cell, row !! Some name = Some v /\
         [VStr ""; VInt 26; VStr ""; VStr ""; VStr ""; VInt 4307; VStr ""; VStr ""; VNone]
           !! i = Some cell /\
         converted v cell) /\
      (name ∉ ["route"; "vendor"; "device"] ->
       [VStr ""; VInt 26; VStr ""; VStr ""; VStr ""; VInt 4307; VStr ""; VStr ""; VNone]
         !! i = Some (default (VStr "") (row !! Some name))).
Proof.
  apply (process_devices_cells
           [["route"; "vendor"; "device"; "type"]; ["1a"; ""; "10d3"]] 0).
  vm_compute. reflexivity.
Defined.







(** ** process-trace.py: the field records *)

Lemma project_lookup_None names row : project names row !! None = None.
Proof.
  unfold project.
  assert (forall d : gmap (option string) value, d !! None = None ->
    foldl (fun d name =>
             match row !! Some name with
             | Some v => <[Some name := v]> d
             | None => d
             end) d names !! None = None) as Hfold.
  { induction names as [|x names IH]; intros d Hd; simpl; [done|].
    apply IH. destruct (row !! Some x); [|done]. by rewrite lookup_insert_ne. }
  by apply Hfold.
Qed.

Lemma comprehension_row names row : forall f,
  comprehension names (IRow row) f
  = Ok (foldl (fun d name =>
                 match row !! Some name with
                 | Some v => <[Some name := v]> d
                 | None => d
                 end) f names).
Proof.
  induction names as [|x names IH]; intros f; simpl; [done|].
  unfold dict_get. destruct (row !! Some x) as [v|] eqn:Hv.
  - rewrite bool_decide_eq_true_2 by done. rsimpl. apply IH.
  - rewrite bool_decide_eq_false_2 by (by intros [? [=]]). apply IH.
Qed.

Lemma write_field_project row :
  write_field (IRow row) field_names
  = (f ← convert_int (project field_names row) "offset";
     f ← convert_int f "data_offset";
     f ← convert_int f "value";
     writerow field_names f).
Proof. unfold write_field. by rewrite comprehension_row. Qed.

(** X15.  A field record depends on the five columns of a field only:
    whatever else two rows hold, if they agree on [entry], [offset],
    [data_offset], [value] and [name], they give the same record or the
    same error.  A column that is not one of the five is never a
    reason to fail. *)
Theorem write_field_columns (row row' : gmap (option string) value) :
  (forall name, name ∈ field_names -> row !! Some name = row' !! Some name) ->
  write_field (IRow row) field_names = write_field (IRow row') field_names.
Proof.
  intros Hagree. rewrite !write_field_project.
  assert (project field_names row = project field_names row') as ->; [|done].
  apply map_eq. intros [name|].
  - rewrite !project_lookup. destruct (decide (name ∈ field_names)); [|done].
    by apply Hagree.
  - by rewrite !project_lookup_None.
Qed.

Lemma write_field_columns_witness :
  write_field (IRow (dict_of_row trace_header
    ["1"; "10"; "1000000000"; "tx"; "0"; "5"; "1"; "0"; "1a"; "1"; "port";
     "0"; "0"; "a1"; "first"])) field_names
  = write_field (IRow (dict_of_row ["entry"; "offset"; "data_offset"; "value"; "name"]
    ["1"; "0"; "0"; "a1"; "first"])) field_names.
Proof.
  apply write_field_columns.
  intros name Hin. unfold field_names in Hin.
  rewrite !elem_of_cons, elem_of_nil in Hin.
  destruct Hin as [->|[->|[->|[->|[->|[]]]]]]; reflexivity.
Defined.

(** X16.  The field record of a row holds, in this order, the entry id as
    it is, the offset, the data offset and the value as numbers read in
    base 16 (or as they are when they are empty), and the name as it
    is.  A row that gives a record has the columns [offset],
    [data_offset] and [value]. *)
Theorem write_field_cells (row : gmap (option string) value) (cells : list value) :
  write_field (IRow row) field_names = Ok cells ->
  exists o d v o' d' v',
    row !! Some "offset" = Some o /\ converted o o' /\
    row !! Some "data_offset" = Some d /\ converted d d' /\
    row !! Some "value" = Some v /\ converted v v' /\
    cells = [default (VStr "") (row !! Some "entry"); o'; d'; v';
             default (VStr "") (row !! Some "name")].
Proof.
  rewrite write_field_project.
  destruct (convert_int _ "offset") as [f1|] eqn:H1; [|done]. rsimpl.
  destruct (convert_int f1 "data_offset") as [f2|] eqn:H2; [|done]. rsimpl.
  destruct (convert_int f2 "value") as [f3|] eqn:H3; [|done]. rsimpl.
  intros [_ ->]%writerow_ok.
  apply convert_int_lookup in H1 as (F1 & o & o' & Ho & Ho' & Hco).
  apply convert_int_lookup in H2 as (F2 & d & d' & Hd & Hd' & Hcd).
  apply convert_int_lookup in H3 as (F3 & v & v' & Hv & Hv' & Hcv).
  rewrite F1 in Hd by done. rewrite F2, F1 in Hv by done.
  rewrite project_lookup in Ho, Hd, Hv.
  rewrite decide_True in Ho by (unfold field_names; rewrite !elem_of_cons; auto).
  rewrite decide_True in Hd by (unfold field_names; rewrite !elem_of_cons; auto).
  rewrite decide_True in Hv by (unfold field_names; rewrite !elem_of_cons; auto).
  exists o, d, v, o', d', v'. repeat (split; [done|]).
  cbn [fmap list_fmap field_names].
  rewrite (F3 (Some "entry")), (F2 (Some "entry")), (F1 (Some "entry")) by done.
  rewrite (F3 (Some "offset")), (F2 (Some "offset")), Ho' by done.
  rewrite (F3 (Some "data_offset")), Hd' by done.
  rewrite Hv'.
  rewrite (F3 (Some "name")), (F2 (Some "name")), (F1 (Some "name")) by done.
  rewrite !project_lookup.
  rewrite !decide_True by (unfold field_names; rewrite !elem_of_cons; auto 10).
  done.
Qed.

Lemma write_field_cells_witness :
  exists o d v o' d' v',
    dict_of_row ["entry"; "offset"; "data_offset"; "value"; "name"]
                ["7"; "1f"; ""; "ff"; "hop"] !! Some "offset" = Some o /\
    converted o o' /\
    dict_of_row ["entry"; "offset"; "data_offset"; "value"; "name"]
                ["7"; "1f"; ""; "ff"; "hop"] !! Some "data_offset" = Some d /\
    converted d d' /\
    dict_of_row ["entry"; "offset"; "data_offset"; "value"; "name"]
                ["7"; "1f"; ""; "ff"; "hop"] !! Some "value" = Some v /\
    converted v v' /\
    [VStr "7"; VInt 31; VStr ""; VInt 255; VStr "hop"]
    = [default (VStr "") (dict_of_row ["entry"; "offset"; "data_offset"; "value"; "name"]
                ["7"; "1f"; ""; "ff"; "hop"] !! Some "entry"); o'; d'; v';
       default (VStr "") (dict_of_row ["entry"; "offset"; "data_offset"; "value"; "name"]
                ["7"; "1f"; ""; "ff"; "hop"] !! Some "name")].
Proof.
  apply write_field_cells. vm_compute. reflexivity.
Defined.

Lemma write_items_ok items names : forall out out',
  write_items items names out = (out', Ok ()) ->
  exists cs, out' = out ++ cs /\
             Forall2 (fun it c => write_field it names = Ok c) items cs.
Proof.
  induction items as [|it items IH]; intros out out'; simpl.
  - intros [= <-]. exists []. by rewrite app_nil_r.
  - destruct (write_field it names) as [c|] eqn:Hc; [|done].
    intros (cs & -> & Hcs)%IH. exists (c :: cs).
    rewrite <- app_assoc. split; [done|]. by constructor.
Qed.

Lemma write_row_ok rows out out' :
  write_row (FRows rows) field_names out = (out', Ok ()) ->
  exists cs, out' = out ++ cs /\ Forall2 field_record rows cs.
Proof.
  unfold write_row. cbn [iterate]. intros (cs & -> & Hcs)%write_items_ok.
  exists cs. split; [done|]. by apply Forall2_fmap_l in Hcs.
Qed.

Lemma trace_loop_fields local_iso reader : forall st st' buf,
  trace_loop local_iso reader st = (st', Ok ()) ->
  truthy (line st) = true -> fields st = FRows buf ->
  Forall has_entry reader ->
  exists cs buf' written,
    fields st' = FRows buf' /\ fields_file st' = fields_file st ++ cs /\
    buf ++ reader = written ++ buf' /\ Forall2 field_record written cs.
Proof.
  induction reader as [|row reader IH]; intros st st' buf Hrun Hline Hbuf Hall.
  - simpl in Hrun. injection Hrun as <-. exists [], buf, [].
    rewrite !app_nil_r. split; [done|]. split; [done|]. split; [done|]. constructor.
  - apply Forall_cons in Hall as [(v & Hv & Htv) Hall].
    cbn [trace_loop] in Hrun.
    destruct (trace_step local_iso st row) as [st1 [[]|e]] eqn:Hstep; [|done].
    unfold trace_step, dict_get in Hstep. rewrite Hline, Hv in Hstep.
    cbn [negb] in Hstep.
    destruct (decide (line st ≠ v)) as [Hne|Heq].
    + destruct (entry_record local_iso row) as [cells|]; [|done].
      destruct (write_row _ _ _) as [fields_out [[]|e]] eqn:Hw; [|done].
      injection Hstep as <-. rewrite Hbuf in Hw.
      apply write_row_ok in Hw as (cs1 & -> & Hcs1).
      destruct (IH _ _ [row] Hrun) as (cs2 & buf' & written & Hf & Hfile & Happ & Hcs2);
        [done | done | done |].
      cbn [fields_file] in Hfile.
      exists (cs1 ++ cs2), buf', (buf ++ written).
      split; [done|]. split; [by rewrite Hfile, app_assoc|]. split.
      * rewrite <- app_assoc, <- Happ. done.
      * by apply Forall2_app.
    + rewrite Hbuf in Hstep. cbn [append] in Hstep. injection Hstep as <-.
      destruct (IH _ _ (buf ++ [row]) Hrun) as (cs & buf' & written & Hf & Hfile & Happ & Hcs);
        [done | done | done |].
      exists cs, buf', written. split; [done|]. split; [done|]. split; [|done].
      rewrite <- Happ, <- app_assoc. done.
Qed.

(** X17.  When every row has an entry id and the run ends without error,
    the fields file holds its header and then the field record of every
    row of the input, one for one and in the order of the input: no row
    is lost, doubled or moved. *)
Theorem process_trace_field_records (local_iso : value -> result string)
    (base : string) (records : list (list string))
    (entries_out fields_out : list (list value)) :
  process_trace local_iso base records = (entries_out, fields_out, Ok ()) ->
  Forall has_entry (DictReader records) ->
  exists cs, fields_out = header_cells field_names :: cs /\
             Forall2 field_record (DictReader records) cs.
Proof.
  unfold process_trace. destruct (DictReader records) as [|row reader].
  { cbn [trace_loop fields fields_file]. unfold write_row.
    destruct (iterate_name base) as (c & rest & ->).
    cbn [write_items]. by rewrite write_field_char. }
  intros Hrun Hall. apply Forall_cons in Hall as [(v & Hv & Htv) Hall].
  cbn [trace_loop] in Hrun. unfold trace_step at 1 in Hrun.
  cbn [line truthy negb] in Hrun. unfold dict_get in Hrun. rewrite Hv in Hrun.
  match type of Hrun with
  | context [trace_loop _ _ ?st] =>
      destruct (trace_loop local_iso reader st) as [st' [[]|e]] eqn:Hloop; [|done]
  end.
  apply (trace_loop_fields _ _ _ _ [row]) in Hloop
    as (cs & buf' & written & Hf & Hfile & Happ & Hcs); [|done|done|done].
  cbn [fields_file] in Hfile. rewrite Hf in Hrun.
  destruct (write_row _ _ _) as [out r] eqn:Hw. injection Hrun as _ <- ->.
  apply write_row_ok in Hw as (cs' & -> & Hcs').
  exists (cs ++ cs'). rewrite Hfile. split; [by rewrite <- app_assoc|].
  change (row :: reader) with ([row] ++ reader). rewrite Happ.
  by apply Forall2_app.
Qed.

Lemma process_trace_field_records_witness :
  exists cs,
    [header_cells field_names;
     [VStr "1"; VInt 0; VInt 0; VInt 161; VStr "first"];
     [VStr "1"; VInt 1; VInt 4; VInt 178; VStr "second"];
     [VStr "2"; VInt 0; VInt 0; VInt 195; VStr "third"]]
    = header_cells field_names :: cs /\
    Forall2 field_record (DictReader example_trace) cs.
Proof.
  apply (process_trace_field_records utc_iso "trace" example_trace
    [header_cells entry_names;
      [VStr "2"; VStr "70"; VStr "2001-09-09T01:47:40"; VStr "rx"; VStr "0";
       VStr "5"; VStr "1"; VStr "0"; VInt 27; VStr "3"; VStr "port"]]).
  - vm_compute. reflexivity.
  - repeat constructor; eexists; (split; [vm_compute; reflexivity | reflexivity]).
Defined.

(** ** process-trace.py: the entry records *)

Lemma convert_timestamp_same local_iso fields name fields' :
  convert_timestamp local_iso fields name = Ok fields' ->
  forall k, k ≠ Some name -> fields' !! k = fields !! k.
Proof.
  unfold convert_timestamp, dict_get.
  destruct (fields !! Some name) as [v|]; [|done]. rsimpl.
  destruct (truthy v); [|by intros [= <-]].
  destruct (local_iso v) as [text|]; [|done]. rsimpl. intros [= <-] k Hk.
  by rewrite lookup_insert_ne.
Qed.

Lemma entry_record_entry local_iso row cells :
  entry_record local_iso row = Ok cells ->
  cells !! 0 = Some (default (VStr "") (row !! Some "entry")).
Proof.
  unfold entry_record.
  destruct (convert_timestamp _ _ "datetime") as [e1|] eqn:H1; [|done]. rsimpl.
  destruct (convert_int e1 "route") as [e2|] eqn:H2; [|done]. rsimpl.
  intros Hw. rewrite (writerow_lookup _ _ _ 0 "entry" Hw) by done.
  destruct (convert_int_lookup _ _ _ H2) as [F2 _].
  rewrite F2 by done.
  rewrite (convert_timestamp_same _ _ _ _ H1) by done.
  rewrite project_lookup. by rewrite decide_True by (unfold entry_names; rewrite !elem_of_cons; auto).
Qed.

Lemma trace_loop_entry_ids local_iso reader : forall st st',
  trace_loop local_iso reader st = (st', Ok ()) ->
  truthy (line st) = true ->
  Forall has_entry reader ->
  (fun cells => cells !! 0) <$> entries_file st'
  = ((fun cells => cells !! 0) <$> entries_file st)
    ++ (Some <$> run_changes (line st) (entry_values reader)).
Proof.
  induction reader as [|row reader IH]; intros st st' Hrun Hline Hall.
  - simpl in *. injection Hrun as <-. by rewrite app_nil_r.
  - apply Forall_cons in Hall as [(v & Hv & Htv) Hall].
    cbn [trace_loop] in Hrun.
    destruct (trace_step local_iso st row) as [st1 [[]|e]] eqn:Hstep; [|done].
    unfold entry_values. cbn [fmap list_fmap run_changes]. rewrite Hv.
    cbn [default from_option id]. fold (entry_values reader).
    unfold trace_step, dict_get in Hstep. rewrite Hline, Hv in Hstep.
    cbn [negb] in Hstep.
    destruct (decide (line st ≠ v)) as [Hne|Heq].
    + destruct (entry_record local_iso row) as [cells|] eqn:Hrec; [|done].
      destruct (write_row _ _ _) as [fields_out [[]|e]]; [|done].
      injection Hstep as <-.
      rewrite (IH _ _ Hrun) by done. cbn [entries_file line].
      rewrite fmap_app. cbn [fmap list_fmap app].
      rewrite (entry_record_entry _ _ _ Hrec), Hv. cbn [default from_option id].
      by rewrite <- app_assoc.
    + destruct (append (fields st) row) as [fs|]; [|done].
      injection Hstep as <-.
      rewrite (IH _ _ Hrun) by done. cbn [entries_file line app].
      assert (line st = v) as -> by (by destruct (decide (line st = v))).
      done.
Qed.

(** X18.  When every row has an entry id and the run ends without error,
    the entries file holds, behind its header, one record for every row
    whose entry id differs from the id of the row before it, in the
    order of the input, and each has that id in its first cell.  The
    run of rows at the head of the input has no record. *)
Theorem process_trace_entry_ids (local_iso : value -> result string)
    (base : string) (records : list (list string))
    (entries_out fields_out : list (list value)) :
  process_trace local_iso base records = (entries_out, fields_out, Ok ()) ->
  Forall has_entry (DictReader records) ->
  exists first rest recs,
    entry_values (DictReader records) = first :: rest /\
    entries_out = header_cells entry_names :: recs /\
    (fun cells => cells !! 0) <$> recs = Some <$> run_changes first rest.
Proof.
  unfold process_trace. destruct (DictReader records) as [|row reader].
  { cbn [trace_loop fields fields_file]. unfold write_row.
    destruct (iterate_name base) as (c & rest & ->).
    cbn [write_items]. by rewrite write_field_char. }
  intros Hrun Hall. apply Forall_cons in Hall as [(v & Hv & Htv) Hall].
  cbn [trace_loop] in Hrun. unfold trace_step at 1 in Hrun.
  cbn [line truthy negb] in Hrun. unfold dict_get in Hrun. rewrite Hv in Hrun.
  match type of Hrun with
  | context [trace_loop _ _ ?st] =>
      destruct (trace_loop local_iso reader st) as [st' [[]|e]] eqn:Hloop; [|done]
  end.
  pose proof (trace_loop_entries _ _ _ _ _ Hloop) as (recs & Hfile & _).
  apply trace_loop_entry_ids in Hloop; [|done|done].
  cbn [entries_file line] in Hloop, Hfile.
  destruct (write_row _ _ _) as [out r]. injection Hrun as <- _ _.
  exists v, (entry_values reader), recs.
  split; [|split; [done|]].
  - unfold entry_values. cbn [fmap list_fmap]. by rewrite Hv.
  - rewrite Hfile in Hloop. cbn [fmap list_fmap app] in Hloop. by injection Hloop.
Qed.

Lemma process_trace_entry_ids_witness :
  exists first rest recs,
    entry_values (DictReader example_trace) = first :: rest /\
    [header_cells entry_names;
      [VStr "2"; VStr "70"; VStr "2001-09-09T01:47:40"; VStr "rx"; VStr "0";
       VStr "5"; VStr "1"; VStr "0"; VInt 27; VStr "3"; VStr "port"]]
    = header_cells entry_names :: recs /\
    (fun cells => cells !! 0) <$> recs = Some <$> run_changes first rest.
Proof.
  apply (process_trace_entry_ids utc_iso "trace" example_trace _
    [header_cells field_names;
     [VStr "1"; VInt 0; VInt 0; VInt 161; VStr "first"];
     [VStr "1"; VInt 1; VInt 4; VInt 178; VStr "second"];
     [VStr "2"; VInt 0; VInt 0; VInt 195; VStr "third"]]).
  - vm_compute. reflexivity.
  - repeat constructor; eexists; (split; [vm_compute; reflexivity | reflexivity]).
Defined.

Lemma trace_loop_empty_entries local_iso reader : forall st,
  truthy (line st) = false ->
  Forall has_empty_entry reader ->
  exists st', trace_loop local_iso reader st = (st', Ok ()) /\
    truthy (line st') = false /\
    entries_file st' = entries_file st /\ fields_file st' = fields_file st /\
    fields st' = match last reader with
                 | Some row => FRows [row]
                 | None => fields st
                 end.
Proof.
  induction reader as [|row reader IH]; intros st Hline Hall.
  - exists st. done.
  - apply Forall_cons in Hall as [(v & Hv & Htv) Hall].
    cbn [trace_loop]. unfold trace_step, dict_get. rewrite Hline, Hv. cbn [negb].
    match goal with
    | |- context [trace_loop _ _ ?st1] =>
        destruct (IH st1) as (st' & Hrun & Hl & He & Hf & Hfs); [done | done |]
    end.
    exists st'. split; [done|]. split; [done|]. split; [done|]. split; [done|].
    rewrite Hfs. cbn [fields]. rewrite last_cons. by destruct (last reader).
Qed.

(** X19.  Rows whose entry id is empty are not kept.  When every row has
    an empty entry id, only the last row of the input gets a field
    record: each row takes the place of the one before it in the
    buffer, and no entry record is written. *)
Theorem process_trace_empty_entries (local_iso : value -> result string)
    (base : string) (records : list (list string))
    (rows : list (gmap (option string) value)) (last_row : gmap (option string) value) :
  DictReader records = rows ++ [last_row] ->
  Forall has_empty_entry (DictReader records) ->
  process_trace local_iso base records
  = ([header_cells entry_names],
     (write_row (FRows [last_row]) field_names [header_cells field_names]).1,
     (write_row (FRows [last_row]) field_names [header_cells field_names]).2).
Proof.
  intros Hreader Hall. unfold process_trace.
  match goal with
  | |- context [trace_loop _ _ ?st0] =>
      destruct (trace_loop_empty_entries local_iso (DictReader records) st0)
        as (st' & -> & _ & He & Hf & Hfs); [done | done |]
  end.
  rewrite Hreader, last_snoc in Hfs. rewrite Hfs, He, Hf.
  cbn [entries_file fields_file]. by destruct (write_row _ _ _).
Qed.

Lemma process_trace_empty_entries_witness :
  process_trace utc_iso "trace"
    [["entry"; "offset"; "data_offset"; "value"; "name"];
     [""; "0"; "0"; "a1"; "first"]; [""; "1"; "4"; "b2"; "second"]]
  = ([header_cells entry_names],
     (write_row (FRows [dict_of_row ["entry"; "offset"; "data_offset"; "value"; "name"]
                                    [""; "1"; "4"; "b2"; "second"]])
                field_names [header_cells field_names]).1,
     (write_row (FRows [dict_of_row ["entry"; "offset"; "data_offset"; "value"; "name"]
                                    [""; "1"; "4"; "b2"; "second"]])
                field_names [header_cells field_names]).2).
Proof.
  apply (process_trace_empty_entries utc_iso "trace" _
    [dict_of_row ["entry"; "offset"; "data_offset"; "value"; "name"]
                 [""; "0"; "0"; "a1"; "first"]]).
  - reflexivity.
  - repeat constructor; eexists; (split; [vm_compute; reflexivity | reflexivity]).
Defined.

Lemma convert_timestamp_lookup local_iso fields name fields' :
  convert_timestamp local_iso fields name = Ok fields' ->
  exists d cell, fields !! Some name = Some d /\
                 fields' !! Some name = Some cell /\
                 datetime_rendered local_iso d cell.
Proof.
  unfold convert_timestamp, dict_get, datetime_rendered.
  destruct (fields !! Some name) as [d|] eqn:Hd; [|done]. rsimpl.
  destruct (truthy d) eqn:Ht.
  - destruct (local_iso d) as [text|] eqn:Hiso; [|done]. rsimpl. intros [= <-].
    exists d, (VStr text). rewrite lookup_insert_eq, Ht.
    split; [done|]. split; [done|]. by exists text.
  - intros [= <-]. exists d, d. by rewrite Ht.
Qed.

(** X20.  An entry record holds the eleven columns of an entry in their
    order: the datetime as the host renders it (or as it is when it is
    empty), the route as a number read in base 16 (or as it is when it
    is empty), and every other column as the row has it, the empty text
    when the row has none.  A row that gives an entry record has the
    columns [datetime] and [route]. *)
Theorem entry_record_cells (local_iso : value -> result string)
    (row : gmap (option string) value) (cells : list value) :
  entry_record local_iso row = Ok cells ->
  exists d d' r r',
    row !! Some "datetime" = Some d /\ datetime_rendered local_iso d d' /\
    row !! Some "route" = Some r /\ converted r r' /\
    cells = [default (VStr "") (row !! Some "entry");
             default (VStr "") (row !! Some "timestamp");
             d';
             default (VStr "") (row !! Some "function");
             default (VStr "") (row !! Some "dropped");
             default (VStr "") (row !! Some "pdf");
             default (VStr "") (row !! Some "cs");
             default (VStr "") (row !! Some "domain");
             r';
             default (VStr "") (row !! Some "adapter");
             default (VStr "") (row !! Some "adapter_type")].
Proof.
  unfold entry_record.
  destruct (convert_timestamp _ _ "datetime") as [e1|] eqn:H1; [|done]. rsimpl.
  destruct (convert_int e1 "route") as [e2|] eqn:H2; [|done]. rsimpl.
  intros [_ ->]%writerow_ok.
  pose proof (convert_timestamp_same _ _ _ _ H1) as F1.
  apply convert_timestamp_lookup in H1 as (d & d' & Hd & Hd' & Hcd).
  apply convert_int_lookup in H2 as (F2 & r & r' & Hr & Hr' & Hcr).
  rewrite F1 in Hr by done.
  rewrite project_lookup in Hd, Hr.
  rewrite decide_True in Hd by (unfold entry_names; rewrite !elem_of_cons; auto 20).
  rewrite decide_True in Hr by (unfold entry_names; rewrite !elem_of_cons; auto 20).
  exists d, d', r, r'. repeat (split; [done|]).
  cbn [fmap list_fmap entry_names].
  rewrite (F2 (Some "datetime")), Hd' by done. rewrite Hr'.
  rewrite !F2, !F1 by done. rewrite !project_lookup.
  rewrite !decide_True by (unfold entry_names; rewrite !elem_of_cons; auto 20).
  done.
Qed.

Lemma entry_record_cells_witness :
  exists d d' r r',
    dict_of_row ["entry"; "timestamp"; "datetime"; "route"; "cs"]
                ["2"; "70"; "1000000060"; "1b"; ""] !! Some "datetime" = Some d /\
    datetime_rendered utc_iso d d' /\
    dict_of_row ["entry"; "timestamp"; "datetime"; "route"; "cs"]
                ["2"; "70"; "1000000060"; "1b"; ""] !! Some "route" = Some r /\
    converted r r' /\
    [VStr "2"; VStr "70"; VStr "2001-09-09T01:47:40"; VStr ""; VStr ""; VStr "";
     VStr ""; VStr ""; VInt 27; VStr ""; VStr ""]
    = [default (VStr "") (dict_of_row ["entry"; "timestamp"; "datetime"; "route"; "cs"]
                ["2"; "70"; "1000000060"; "1b"; ""] !! Some "entry");
       default (VStr "") (dict_of_row ["entry"; "timestamp"; "datetime"; "route"; "cs"]
                ["2"; "70"; "1000000060"; "1b"; ""] !! Some "timestamp");
       d';
       default (VStr "") (dict_of_row ["entry"; "timestamp"; "datetime"; "route"; "cs"]
                ["2"; "70"; "1000000060"; "1b"; ""] !! Some "function");
       default (VStr "") (dict_of_row ["entry"; "timestamp"; "datetime"; "route"; "cs"]
                ["2"; "70"; "1000000060"; "1b"; ""] !! Some "dropped");
       default (VStr "") (dict_of_row ["entry"; "timestamp"; "datetime"; "route"; "cs"]
                ["2"; "70"; "1000000060"; "1b"; ""] !! Some "pdf");
       default (VStr "") (dict_of_row ["entry"; "timestamp"; "datetime"; "route"; "cs"]
                ["2"; "70"; "1000000060"; "1b"; ""] !! Some "cs");
       default (VStr "") (dict_of_row ["entry"; "timestamp"; "datetime"; "route"; "cs"]
                ["2"; "70"; "1000000060"; "1b"; ""] !! Some "domain");
       r';
       default (VStr "") (dict_of_row ["entry"; "timestamp"; "datetime"; "route"; "cs"]
                ["2"; "70"; "1000000060"; "1b"; ""] !! Some "adapter");
       default (VStr "") (dict_of_row ["entry"; "timestamp"; "datetime"; "route"; "cs"]
                ["2"; "70"; "1000000060"; "1b"; ""] !! Some "adapter_type")].
Proof.
  apply (entry_record_cells utc_iso). vm_compute. reflexivity.
Defined.

(** ** merge-logs.py: the boundary pattern *)

Lemma is_digit_not_space c : is_digit c = true -> is_space c = false.
Proof. intros H. by_cases_on_char c. Qed.

Lemma all_digits_cons d : all_digits d = true -> exists c r, d = String c r /\ is_digit c = true.
Proof.
  unfold all_digits. destruct d as [|c r]; [done|]. simpl.
  destruct (is_digit c) eqn:Hc; [|done]. intros _. by exists c, r.
Qed.

Lemma all_digits_span d : all_digits d = true -> span is_digit d = (d, EmptyString).
Proof.
  unfold all_digits. destruct (span is_digit d) as [a b] eqn:Hs.
  destruct a; [done|]. destruct b; [|done]. intros _.
  by pose proof (span_whole _ _ _ Hs) as ->.
Qed.

Lemma pattern_match_complete (ws d1 d2 rest : string) :
  all_spaces ws = true -> all_digits d1 = true -> all_digits d2 = true ->
  pattern_match ("[" +:+ ws +:+ d1 +:+ "." +:+ d2 +:+ "]" +:+ rest)
  = Some (d1 +:+ "." +:+ d2).
Proof.
  intros Hws H1 H2.
  destruct (all_digits_cons _ H1) as (c1 & r1 & -> & Hc1).
  destruct (all_digits_cons _ H2) as (c2 & r2 & -> & Hc2).
  apply all_digits_span in H1, H2.
  unfold all_spaces in Hws. destruct (span is_space ws) as [a b] eqn:Hs.
  destruct b; [|done]. pose proof (span_whole _ _ _ Hs) as ->.
  change ("[" +:+ ws +:+ String c1 r1 +:+ "." +:+ String c2 r2 +:+ "]" +:+ rest)
    with (String "[" (ws +:+ String c1 (r1 +:+ String "." (String c2 (r2 +:+ String "]" rest))))).
  unfold pattern_match.
  rewrite (span_append is_space ws c1 _ Hs) by by apply is_digit_not_space.
  change (String c1 (r1 +:+ String "." (String c2 (r2 +:+ String "]" rest))))
    with (String c1 r1 +:+ String "." (String c2 (r2 +:+ String "]" rest))).
  rewrite (span_append is_digit _ "." _ H1) by done.
  change (String c2 (r2 +:+ String "]" rest)) with (String c2 r2 +:+ String "]" rest).
  rewrite (span_append is_digit _ "]" _ H2) by done.
  done.
Qed.

Lemma span_concat p s : (span p s).1 +:+ (span p s).2 = s.
Proof.
  induction s as [|c s IH]; [done|]. simpl.
  destruct (p c); [|done]. destruct (span p s) as [a b]. simpl in *.
  by rewrite append_cons, IH.
Qed.

(** X21.  The boundary pattern accepts exactly the lines that start with
    an opening bracket, white space or none, digits, a point, digits
    and a closing bracket; it captures the digits, the point and the
    digits, and what follows the bracket does not matter. *)
Theorem pattern_match_iff (line group1 : string) :
  pattern_match line = Some group1 <->
  exists ws d1 d2 rest,
    line = "[" +:+ ws +:+ d1 +:+ "." +:+ d2 +:+ "]" +:+ rest /\
    all_spaces ws = true /\ all_digits d1 = true /\ all_digits d2 = true /\
    group1 = d1 +:+ "." +:+ d2.
Proof.
  split; cycle 1.
  { intros (ws & d1 & d2 & rest & -> & Hws & H1 & H2 & ->).
    by apply pattern_match_complete. }
  unfold pattern_match. destruct line as [|c r0]; [done|].
  destruct c as [[] [] [] [] [] [] [] []]; try done.
  pose proof (span_concat is_space r0) as Hr0.
  pose proof (span_fst is_space r0) as Hsp.
  destruct (span is_space r0) as [sp r1]. simpl in Hr0, Hsp.
  pose proof (span_concat is_digit r1) as Hr1.
  pose proof (span_fst is_digit r1) as H1.
  destruct (span is_digit r1) as [d1 r2]. simpl in Hr1, H1.
  destruct d1 as [|x d1]; [done|].
  destruct r2 as [|c r3]; [done|].
  destruct c as [[] [] [] [] [] [] [] []]; try done.
  pose proof (span_concat is_digit r3) as Hr3.
  pose proof (span_fst is_digit r3) as H2.
  destruct (span is_digit r3) as [d2 r4]. simpl in Hr3, H2.
  destruct d2 as [|y d2]; [done|].
  destruct r4 as [|c r5]; [done|].
  destruct c as [[] [] [] [] [] [] [] []]; try done.
  intros [= <-]. exists sp, (String x d1), (String y d2), r5.
  split; [|split; [|split; [|split]]].
  - rewrite <- Hr0, <- Hr1, <- Hr3. done.
  - unfold all_spaces. by rewrite Hsp.
  - unfold all_digits. by rewrite H1.
  - unfold all_digits. by rewrite H2.
  - done.
Qed.

(** ** merge-logs.py: when the run ends well *)

(** X22.  [merge_logs] prints its records exactly when every source is
    empty or starts with a boundary line; in every other case it raises
    [IndexError], and it raises no other error. *)
Theorem merge_logs_outcome (logs : list string) :
  (well_formed logs <-> exists out, merge_logs logs = Ok out) /\
  (¬ well_formed logs <-> merge_logs logs = Raise IndexError) /\
  (forall e, merge_logs logs = Raise e -> e = IndexError).
Proof.
  destruct (decide (well_formed logs)) as [Hwf|Hbad].
  - destruct (merge_logs_run logs Hwf) as (popped & Hrun & _).
    split; [|split].
    + split; [|done]. intros _. by eexists.
    + split; [done|]. by rewrite Hrun.
    + intros e. by rewrite Hrun.
  - pose proof (merge_logs_leading logs Hbad) as Hrun.
    split; [|split].
    + split; [done|]. intros [out Hout]. by rewrite Hrun in Hout.
    + done.
    + intros e. rewrite Hrun. by intros [= <-].
Qed.
